(** * meta-recipes: transaction construction and AMM arithmetic

    A shallow embedding of [src/services/near.ts] (class [BaseLogic]) and of
    the recipe class [Logic] that extends it, with the properties of the
    amount arithmetic, the storage deposit policy, the AMM estimates, the
    transaction builder and the recipe orchestration. *)

From Stdlib Require Import ZArith Lia Ascii String DecimalString DecimalZ.
From stdpp Require Import strings list gmap.

Local Open Scope string_scope.
Local Open Scope Z_scope.

(** ** The JavaScript fragment used by the services *)

Module JS.

(** Exceptions the services can raise.  [ViewCallFailure] is the rejection
    of a read from the network; [Error] is [new Error(msg)]. *)
Inductive exn : Type :=
| TypeError (msg : string)
| RangeError (msg : string)
| SyntaxError
| ViewCallFailure
| Error (msg : string).

Definition DivisionByZero : exn := RangeError "Division by zero".
Definition InvalidCount : exn := RangeError "Invalid count value".
Definition NotABigInt : exn := TypeError "Cannot convert undefined to a BigInt".
Definition NullProperty : exn := TypeError "Cannot read properties of null".
Definition EmptyReduce : exn :=
  TypeError "Reduce of empty array with no initial value".

(** A computation either returns a value or throws. *)
Inductive result (A : Type) : Type :=
| Ok (a : A)
| Throw (e : exn).
Arguments Ok {A} a.
Arguments Throw {A} e.

Definition bind {A B} (m : result A) (k : A -> result B) : result B :=
  match m with
  | Ok a => k a
  | Throw e => Throw e
  end.

(** [BigInt.prototype.toString()]: canonical decimal, [-] for negatives. *)
Definition toString (z : Z) : string := NilZero.string_of_int (Z.to_int z).

(** [BigInt(s)] on a string, for the decimal literals of the
    StringToBigInt grammar: digits with an optional sign, and the empty
    string, which is [0n].  Anything else is a [SyntaxError] here; the
    radix-prefixed and whitespace-padded literals are not amounts and are
    left out of the model. *)
Definition BigInt (s : string) : result Z :=
  match NilZero.int_of_string s with
  | Some d => Ok (Z.of_int d)
  | None =>
      match s with
      | EmptyString => Ok 0
      | String "+"%char s' =>
          match NilZero.uint_of_string s' with
          | Some d => Ok (Z.of_uint d)
          | None => Throw SyntaxError
          end
      | _ => Throw SyntaxError
      end
  end.

(** [BigInt(v)] where [v] may be [undefined] or [null]: a [TypeError]. *)
Definition BigInt_of (v : option string) : result Z :=
  match v with
  | Some s => BigInt s
  | None => Throw NotABigInt
  end.

(** BigInt [/]: truncates toward zero, [RangeError] on a zero divisor. *)
Definition div (a b : Z) : result Z :=
  if b =? 0 then Throw DivisionByZero else Ok (Z.quot a b).

(** BigInt [%]: the sign follows the dividend. *)
Definition rem (a b : Z) : result Z :=
  if b =? 0 then Throw DivisionByZero else Ok (Z.rem a b).

(** What reading a property of a view answer gives: a string, or a member
    that every plain object inherits from [Object.prototype] (a function, or
    the prototype itself for [__proto__]), named by its key. *)
Inductive value : Type :=
| VString (s : string)
| VInherited (name : string).

(** The property names of [Object.prototype]. *)
Definition Object_prototype_names : list string :=
  ["constructor"; "hasOwnProperty"; "isPrototypeOf"; "propertyIsEnumerable";
   "toLocaleString"; "toString"; "valueOf"; "__proto__";
   "__defineGetter__"; "__defineSetter__"; "__lookupGetter__";
   "__lookupSetter__"].

Definition inherited (key : string) : bool :=
  existsb (String.eqb key) Object_prototype_names.

(** [o[key]] on the plain object that [JSON.parse] makes of a map of
    strings: the own property when there is one, else the member inherited
    from [Object.prototype], else [undefined], which is [None]. *)
Definition get_property (o : gmap string string) (key : string)
  : option value :=
  match o !! key with
  | Some s => Some (VString s)
  | None => if inherited key then Some (VInherited key) else None
  end.

(** Truthiness of a property read: [undefined] and the empty string are
    falsy, an inherited member is truthy. *)
Definition truthy (v : option value) : bool :=
  match v with
  | Some (VString EmptyString) | None => false
  | Some _ => true
  end.

(** [String.prototype.repeat(count)] for an integral count. *)
Definition String_repeat (s : string) (count : Z) : result string :=
  if count <? 0 then Throw InvalidCount
  else Ok (Nat.iter (Z.to_nat count) (String.append s) EmptyString).

(** [Array.prototype.reduce(callback)] with no initial value: the
    accumulator starts as element 0 and the callback is first called at
    index 1; an empty array is a [TypeError]. *)
Fixpoint Array_reduce_from {A} (f : A -> A -> nat -> result A)
         (acc : A) (l : list A) (index : nat) : result A :=
  match l with
  | [] => Ok acc
  | x :: l' =>
      bind (f acc x index) (fun acc' => Array_reduce_from f acc' l' (S index))
  end.

Definition Array_reduce {A} (f : A -> A -> nat -> result A) (l : list A)
  : result A :=
  match l with
  | [] => Throw EmptyReduce
  | x :: l' => Array_reduce_from f x l' 1
  end.

(** [Array.prototype.map] with a callback that may throw. *)
Fixpoint Array_map {A B} (f : A -> result B) (l : list A) : result (list B) :=
  match l with
  | [] => Ok []
  | x :: l' =>
      bind (f x) (fun y => bind (Array_map f l') (fun ys => Ok (y :: ys)))
  end.

(** [Promise.all]: the values in order, or a rejection.  When several
    promises reject, the one reported here is the first in the list. *)
Fixpoint Promise_all {A} (ps : list (result A)) : result (list A) :=
  match ps with
  | [] => Ok []
  | p :: ps' =>
      bind p (fun x => bind (Promise_all ps') (fun xs => Ok (x :: xs)))
  end.

End JS.

Import JS.

Notation "'let*' x ':=' m 'in' k" := (JS.bind m (fun x => k))
  (at level 10, x name, m at level 100, k at level 200).

(** ** Data model *)

(** The structured payload of a contract call. *)
#[warnings="-register-all"] Inductive json : Type :=
| JNull
| JNum (n : Z)
| JStr (s : string)
| JArr (items : list json)
| JObj (fields : list (string * json)).

(** [nearAPI.transactions.functionCall(methodName, args, gas, deposit)] *)
Record Action : Type := functionCall {
  methodName : string;
  args : json;
  gas : Z;
  deposit : string
}.

Record PublicKey : Type := { keyType : Z; data : list Byte.byte }.

(** What [accessKeyForTransaction] resolves to. *)
Record AccessKeyInfo : Type := {
  public_key : string;
  access_key_nonce : Z
}.

(** [nearAPI.transactions.createTransaction(signerId, publicKey, receiverId,
    nonce, actions, blockHash)] *)
Record Transaction : Type := createTransaction {
  signerId : string;
  publicKey : PublicKey;
  receiverId : string;
  nonce : Z;
  actions : list Action;
  blockHash : list Byte.byte
}.

(** The answer of [storage_balance_of]; a field may be missing. *)
Record StorageBalance : Type := {
  total : option string;
  available : option string
}.

(** The answer of [get_pool]. *)
Record PoolView : Type := {
  total_fee : Z;
  amounts : list string;
  shares_total_supply : string
}.

Record PoolInfo : Type := {
  fee : Z;
  user_shares : string;
  total_shares : string;
  pool_amounts : list string
}.

Record Deposit : Type := { token : string; amount : string }.

Record Position : Type := { pool_id : Z; position_amounts : list string }.

(** The argument of [requestSignTransactions]. *)
Record SignRequest : Type := {
  transactions : list Transaction;
  callbackUrl : string
}.

(** What the services consume from outside at the time of a call: the
    session ([window.account], [window.nearConfig], [window.location]), the
    answers of the read-only view interface ([None] is [null]; [Throw] is a
    rejected read), and the pure helpers of near-api-js and borsh.  An
    answer that is a JSON object keyed by seed or token identifiers is given
    by the finite map of its own properties; [get_property] reads it as the
    plain object it is. *)
Record World : Type := {
  accountId : string;
  ADDRESS_REF_FARMING : string;
  ADDRESS_REF_EXCHANGE : string;
  ADDRESS_WNEAR : string;
  ADDRESS_METAPOOL : string;
  location_href : string;
  (* viewFunction(ADDRESS_REF_FARMING, "list_user_seeds", {account_id}) *)
  list_user_seeds : result (gmap string string);
  (* viewFunction(ADDRESS_REF_EXCHANGE, "get_deposits", {account_id}) *)
  get_deposits : result (gmap string string);
  (* viewFunction(contract, "storage_balance_of", {account_id}) *)
  storage_balance_of : string -> result (option StorageBalance);
  (* viewFunction(ADDRESS_REF_EXCHANGE, "get_pool_shares", {pool_id, account_id}) *)
  get_pool_shares : Z -> result string;
  (* viewFunction(ADDRESS_REF_EXCHANGE, "get_pool", {pool_id}) *)
  get_pool : Z -> result PoolView;
  (* window.account.accessKeyForTransaction(receiverId, actions) *)
  accessKeyForTransaction : string -> list Action -> result (option AccessKeyInfo);
  (* provider.block({finality: "final"}).header.hash *)
  block_header_hash : result string;
  baseDecode : string -> list Byte.byte;
  PublicKey_from : string -> PublicKey;
  (* parseNearAmount((Number(q) / 10 ** accuracy).toString())!, the
     floating-point tail of estimateStnearOut, as a function of the BigInt
     quotient q and of accuracy *)
  parseNearAmount_scaled : Z -> Z -> result string
}.

(** ** BaseLogic *)

(** The constants are [nearAPI.utils.format.parseNearAmount] of "0.045",
    "0.005", "0.01", "0.01" and "0.00125": the amount in yoctoNEAR, 10^24
    to the NEAR. *)
Definition FARM_STORAGE_BALANCE : string := "45000000000000000000000".
Definition MIN_DEPOSIT_PER_TOKEN : string := "5000000000000000000000".
Definition ONE_MORE_DEPOSIT_AMOUNT : string := "10000000000000000000000".
Definition LP_STORAGE_AMOUNT : string := "10000000000000000000000".
Definition NEW_ACCOUNT_STORAGE_COST : string := "1250000000000000000000".

(** [makeTransaction(receiverId, actions, nonceOffset = 1)].  Nonces are
    integers far below 2^53, where the addition of JavaScript numbers is
    the addition of integers. *)
Definition makeTransaction (w : World) (receiverId : string)
           (actions : list Action) (nonceOffset : option Z)
  : result Transaction :=
  let nonceOffset := default 1 nonceOffset in
  let* accessKey := accessKeyForTransaction w receiverId actions in
  let* hash := block_header_hash w in
  match accessKey with
  | None =>
      Throw (Error ("Cannot find matching key for transaction sent to "
                      +:+ receiverId))
  | Some accessKey =>
      let blockHash := baseDecode w hash in
      let publicKey := PublicKey_from w (public_key accessKey) in
      let nonce := access_key_nonce accessKey + nonceOffset in
      Ok (createTransaction (accountId w) publicKey receiverId nonce actions
                            blockHash)
  end.

(** [passToWallet(preTXs)]: the request handed to the signer. *)
Definition passToWallet (w : World) (preTXs : list (result (list Transaction)))
  : result SignRequest :=
  let* TXs := Promise_all preTXs in
  Ok {| transactions := concat TXs; callbackUrl := location_href w |}.

(** [getFarmingStake(pool_id)] *)
Definition getFarmingStake (w : World) (pool_id : Z) : result value :=
  let* seeds := list_user_seeds w in
  let key := ADDRESS_REF_EXCHANGE w +:+ "@" +:+ toString pool_id in
  Ok (if truthy (get_property seeds key)
      then default (VString "") (get_property seeds key)
      else VString "0").

(** [getTokenBalancesOnRef(tokens)] *)
Definition getTokenBalancesOnRef (w : World) (tokens : list string)
  : result (list value) :=
  let* refBalances := get_deposits w in
  let balances :=
    List.map (fun token =>
                if truthy (get_property refBalances token)
                then default (VString "") (get_property refBalances token)
                else VString "0") tokens in
  Ok balances.

(** [getPoolInfo(poolID)] *)
Definition getPoolInfo (w : World) (poolID : Z) : result PoolInfo :=
  let* user_shares := get_pool_shares w poolID in
  let* pool := get_pool w poolID in
  Ok {| fee := total_fee pool; user_shares := user_shares;
        total_shares := shares_total_supply pool;
        pool_amounts := amounts pool |}.

(** [calcMinLPAmountsOut(user_shares, total_shares, amounts)] *)
Definition calcMinLPAmountsOut (user_shares total_shares : string)
           (amounts : list string) : result (list string) :=
  Array_map (fun amount =>
    let* a := BigInt amount in
    let* u := BigInt user_shares in
    let* t := BigInt total_shares in
    let* exact_amount := JS.div (a * u) t in
    let* n := BigInt "999" in
    let* d := BigInt "1000" in
    let* q := JS.div (exact_amount * n) d in
    Ok (toString q)) amounts.

(** [calcLpSharesFromAmounts(pool_total_shares, pool_amounts, lp_amounts)] *)
Definition calcLpSharesFromAmounts (pool_total_shares : string)
           (pool_amounts lp_amounts : list string) : result string :=
  let* lp_shares_estimate :=
    Array_reduce (fun prevValue poolAmt index =>
      let* t := BigInt pool_total_shares in
      let* a := BigInt_of (lp_amounts !! index) in
      let* p := BigInt poolAmt in
      let* currValue := JS.div (t * a) p in
      let* prev := BigInt prevValue in
      Ok (if prev <? currValue then prevValue else toString currValue))
      pool_amounts in
  let* e := BigInt lp_shares_estimate in
  let* n := BigInt "997" in
  let* d := BigInt "1000" in
  let* q := JS.div (e * n) d in
  Ok (toString q).

(** [roundUpToNearest(x, m)] *)
Definition roundUpToNearest (x m : string) : result string :=
  let* bx := BigInt x in
  let* bm := BigInt m in
  let* rest := JS.rem bx bm in
  let toAdd := if rest =? 0 then 0 else bm in
  Ok (toString (bx - rest + toAdd)).

(** [estimateStnearOut(amount, price, accuracy = 5)] *)
Definition estimateStnearOut (w : World) (amount price : string)
           (accuracy : option Z) : result string :=
  let accuracy := default 5 accuracy in
  let* p := BigInt price in
  if p =? 0 then Ok "0"
  else
    let* zeros := String_repeat "0" accuracy in
    let* a := BigInt (amount +:+ zeros) in
    let* p' := BigInt price in
    let* q := JS.div a p' in
    parseNearAmount_scaled w q accuracy.

(** The storage check of [farmStake]: whether a [storage_deposit] on the
    farm is needed. *)
Definition farmStake_needs_storage (storage_balance : option StorageBalance)
  : result bool :=
  match storage_balance with
  | None => Ok true
  | Some sb =>
      let* a := BigInt (default "0" (available sb)) in
      let* f := BigInt FARM_STORAGE_BALANCE in
      if a <? f then Ok true
      else
        let* a' := BigInt (default "0" (available sb)) in
        let* m := BigInt MIN_DEPOSIT_PER_TOKEN in
        Ok (a' <? m)
  end.

(** [farmStake(amount, poolID)] *)
Definition farmStake (w : World) (amount : string) (poolID : Z)
  : result (list Transaction) :=
  let* storage_balance := storage_balance_of w (ADDRESS_REF_FARMING w) in
  let* needed := farmStake_needs_storage storage_balance in
  let storageActions :=
    if needed
    then [functionCall "storage_deposit" (JObj []) 20000000000000
                       FARM_STORAGE_BALANCE]
    else [] in
  let stakingActions :=
    [functionCall "mft_transfer_call"
       (JObj [("receiver_id", JStr (ADDRESS_REF_FARMING w));
              ("token_id", JStr (":" +:+ toString poolID));
              ("amount", JStr amount);
              ("msg", JStr "")])
       180000000000000 "1"] in
  let preTXs :=
    ((if (0 <? length storageActions)%nat
      then [makeTransaction w (ADDRESS_REF_FARMING w) storageActions None]
      else [])
     ++ [makeTransaction w (ADDRESS_REF_EXCHANGE w) stakingActions None])%list in
  Promise_all preTXs.

(** The actions [addLiquidity] sends to the exchange, one per position. *)
Definition addLiquidity_refActions (positions : list Position)
  : result (list Action) :=
  Array_map (fun position =>
    let pool_id := pool_id position in
    let amounts := position_amounts position in
    let* min_lp_amounts :=
      Array_map (fun amount =>
        let* a := BigInt amount in
        let* n := BigInt "999" in
        let* d := BigInt "1000" in
        let* q := JS.div (a * n) d in
        Ok (toString q)) amounts in
    Ok (functionCall "add_liquidity"
          (JObj [("pool_id", JNum pool_id);
                 ("amounts", JArr (List.map JStr amounts));
                 ("min_amounts", JArr (List.map JStr min_lp_amounts))])
          100000000000000 LP_STORAGE_AMOUNT)) positions.

(** [addLiquidity(positions)] *)
Definition addLiquidity (w : World) (positions : list Position)
  : result (list Transaction) :=
  let* refActions := addLiquidity_refActions positions in
  let preTXs := [makeTransaction w (ADDRESS_REF_EXCHANGE w) refActions None] in
  Promise_all preTXs.

(** The storage check of [depositTokensOnRef]: the actions that raise the
    user's storage balance on the exchange before [n] token deposits. *)
Definition depositTokensOnRef_refActions (n : nat)
           (storage_balance : option StorageBalance) : result (list Action) :=
  let* m := BigInt MIN_DEPOSIT_PER_TOKEN in
  let storage_needed := Z.of_nat n * m in
  let* short :=
    match storage_balance with
    | None => Ok true
    | Some sb =>
        let* a := BigInt_of (available sb) in Ok (a <=? storage_needed)
    end in
  if short then
    let* a :=
      match storage_balance with
      | None => Throw NullProperty
      | Some sb => BigInt_of (available sb)
      end in
    let amountMissing := toString (storage_needed - a) in
    let* amountToPay := roundUpToNearest amountMissing MIN_DEPOSIT_PER_TOKEN in
    Ok [functionCall "storage_deposit" (JObj []) 20000000000000 amountToPay]
  else Ok [].

(** [depositTokensOnRef(deposits)] *)
Definition depositTokensOnRef (w : World) (deposits : list Deposit)
  : result (list Transaction) :=
  let* storage_balance := storage_balance_of w (ADDRESS_REF_EXCHANGE w) in
  let* refActions :=
    depositTokensOnRef_refActions (length deposits) storage_balance in
  let tokensActions :=
    List.map (fun d =>
      (token d,
       [functionCall "ft_transfer_call"
          (JObj [("receiver_id", JStr (ADDRESS_REF_EXCHANGE w));
                 ("amount", JStr (amount d));
                 ("msg", JStr "")])
          150000000000000 "1"])) deposits in
  let preTXs :=
    ((if (1 <=? length refActions)%nat
      then [makeTransaction w (ADDRESS_REF_EXCHANGE w) refActions None]
      else [])
     ++ List.map (fun ta => makeTransaction w (fst ta) (snd ta) None)
                 tokensActions)%list in
  Promise_all preTXs.

(** ** Logic, the stNEAR<>wNEAR recipe *)

Section Logic.

(** [farmStakeV2], a method the recipe calls on its base class. *)
Variable farmStakeV2 : World -> string -> Z -> result (list Transaction).

Definition STNEAR_WNEAR_POOL_ID : Z := 535.

(** The operations [stepTwoAction] collects in [actions]. *)
Definition stepTwoAction_actions (w : World) (isFarmActive : option bool)
           (stnearAmount wnearAmount : string)
  : result (list (result (list Transaction))) :=
  let* info := getPoolInfo w STNEAR_WNEAR_POOL_ID in
  let* lpShares :=
    calcLpSharesFromAmounts (total_shares info) (pool_amounts info)
                            [stnearAmount; wnearAmount] in
  let actions :=
    [depositTokensOnRef w
       [ {| token := ADDRESS_METAPOOL w; amount := stnearAmount |};
         {| token := ADDRESS_WNEAR w; amount := wnearAmount |} ];
     addLiquidity w
       [ {| pool_id := STNEAR_WNEAR_POOL_ID;
            position_amounts := [stnearAmount; wnearAmount] |} ]] in
  Ok (if default false isFarmActive
      then (actions ++ [farmStakeV2 w lpShares STNEAR_WNEAR_POOL_ID])%list
      else actions).

(** [stepTwoAction(amounts)] *)
Definition stepTwoAction (w : World) (isFarmActive : option bool)
           (stnearAmount wnearAmount : string) : result SignRequest :=
  let* actions :=
    stepTwoAction_actions w isFarmActive stnearAmount wnearAmount in
  passToWallet w actions.

End Logic.

(** ** BaseLogic, the remaining operations *)

(** The storage check of [farmUnstake]: whether the farm holds no storage
    for the account. *)
Definition farmUnstake_needs_storage (storage_balance : option StorageBalance)
  : result bool :=
  match storage_balance with
  | None => Ok true
  | Some sb =>
      let* a := BigInt_of (available sb) in
      let* z := BigInt "0" in
      Ok (a <=? z)
  end.

(** [farmUnstake(amount, poolID)] *)
Definition farmUnstake (w : World) (amount : string) (poolID : Z)
  : result (list Transaction) :=
  let* storage_balance := storage_balance_of w (ADDRESS_REF_FARMING w) in
  let* needed := farmUnstake_needs_storage storage_balance in
  let actions :=
    ((if needed
      then [functionCall "storage_deposit" (JObj []) 20000000000000
                         FARM_STORAGE_BALANCE]
      else [])
     ++ [functionCall "withdraw_seed"
           (JObj [("seed_id",
                   JStr (ADDRESS_REF_EXCHANGE w +:+ "@" +:+ toString poolID));
                  ("amount", JStr amount);
                  ("msg", JStr "")])
           200000000000000 "1"])%list in
  let* TX := makeTransaction w (ADDRESS_REF_FARMING w) actions None in
  Ok [TX].

(** The storage check of [instantSwap] and of [nearToWnear]: whether the
    token contract holds no storage for the account. *)
Definition token_needs_storage (storage : option StorageBalance) : result bool :=
  match storage with
  | None => Ok true
  | Some sb =>
      let* t := BigInt_of (total sb) in
      let* z := BigInt "0" in
      Ok (t <=? z)
  end.

(** [nearToStnear(near_amount)] *)
Definition nearToStnear (w : World) (near_amount : string)
  : result (list Transaction) :=
  let metapoolActions :=
    [functionCall "deposit_and_stake" (JObj []) 50000000000000 near_amount] in
  let preTXs := [makeTransaction w (ADDRESS_METAPOOL w) metapoolActions None] in
  Promise_all preTXs.

(** [nearToWnear(near_amount)] *)
Definition nearToWnear (w : World) (near_amount : string)
  : result (list Transaction) :=
  let* wnearStorage := storage_balance_of w (ADDRESS_WNEAR w) in
  let* needed := token_needs_storage wnearStorage in
  let wNearActions :=
    ((if needed
      then [functionCall "storage_deposit" (JObj []) 30000000000000
                         NEW_ACCOUNT_STORAGE_COST]
      else [])
     ++ [functionCall "near_deposit" (JObj []) 50000000000000 near_amount])%list in
  let preTXs := [makeTransaction w (ADDRESS_WNEAR w) wNearActions None] in
  Promise_all preTXs.

(** Modelled from the spec: the [SwapAction] type of [./ref-finance], which
    is not among the sources: [{pool_id, token_in, token_out, amount_in,
    min_amount_out}]. *)
Record SwapAction : Type := {
  swap_pool_id : Z;
  token_in : string;
  token_out : string;
  amount_in : string;
  min_amount_out : string
}.

Definition SwapAction_json (a : SwapAction) : json :=
  JObj [("pool_id", JNum (swap_pool_id a));
        ("token_in", JStr (token_in a));
        ("token_out", JStr (token_out a));
        ("amount_in", JStr (amount_in a));
        ("min_amount_out", JStr (min_amount_out a))].

Section Swap.

(** [JSON.stringify], which only shapes the message of the swap call. *)
Variable JSON_stringify : json -> string.

(** [instantSwap(swap_action)] *)
Definition instantSwap (w : World) (swap_action : SwapAction)
  : result (list Transaction) :=
  let* tokenOutStorage := storage_balance_of w (token_out swap_action) in
  let* needed := token_needs_storage tokenOutStorage in
  let tokenOutActions :=
    if needed
    then [functionCall "storage_deposit" (JObj []) 30000000000000
                       NEW_ACCOUNT_STORAGE_COST]
    else [] in
  let tokenInActions :=
    [functionCall "ft_transfer_call"
       (JObj [("receiver_id", JStr (ADDRESS_REF_EXCHANGE w));
              ("amount", JStr (amount_in swap_action));
              ("msg",
               JStr (JSON_stringify
                       (JObj [("force", JNum 0);
                              ("actions",
                               JArr [SwapAction_json swap_action])])))])
       180000000000000 "1"] in
  let preTXs :=
    ((if (0 <? length tokenOutActions)%nat
      then [makeTransaction w (token_out swap_action) tokenOutActions None]
      else [])
     ++ [makeTransaction w (token_in swap_action) tokenInActions None])%list in
  Promise_all preTXs.

End Swap.

(** ** Logic, the remaining steps *)

(** [stepOneAction(allowance)] *)
Definition stepOneAction (w : World) (allowance : string) : result SignRequest :=
  let* a := BigInt allowance in
  let* two := BigInt "2" in
  let* half := JS.div a two in
  let amountToWrap := toString half in
  let* a' := BigInt allowance in
  let* two' := BigInt "2" in
  let* half' := JS.div a' two' in
  let amountToStake := toString half' in
  passToWallet w [nearToWnear w amountToWrap; nearToStnear w amountToStake].

(** [stnearWnearFarmingStake()] *)
Definition stnearWnearFarmingStake (w : World) : result value :=
  getFarmingStake w STNEAR_WNEAR_POOL_ID.

(** ** A concrete world

    An account with a registered full-access key, no storage balance yet,
    and the stNEAR<>wNEAR pool of the spec's example; the theorems are run
    on it. *)
Definition sample_key : AccessKeyInfo :=
  {| public_key := "ed25519:6E8sCci9badyRkXb3JoRpBj5p8C6Tw41ELDZoiihKEtp";
     access_key_nonce := 41 |}.

Definition sample_world : World :=
  {| accountId := "alice.near";
     ADDRESS_REF_FARMING := "v2.ref-farming.near";
     ADDRESS_REF_EXCHANGE := "v2.ref-finance.near";
     ADDRESS_WNEAR := "wrap.near";
     ADDRESS_METAPOOL := "meta-pool.near";
     location_href := "https://recipes.example/stnear-wnear";
     list_user_seeds := Ok ∅;
     get_deposits := Ok {[ "wrap.near" := "10" ]};
     storage_balance_of := fun _ => Ok None;
     get_pool_shares := fun _ => Ok "0";
     get_pool := fun _ =>
       Ok {| total_fee := 30; amounts := ["100"; "200"];
             shares_total_supply := "1000000" |};
     accessKeyForTransaction := fun _ _ => Ok (Some sample_key);
     block_header_hash := Ok "9MzuZrRPW1BGpFnZJUJg6SzCrixPpJDfjsNeUobRXsLe";
     baseDecode := fun _ => [];
     PublicKey_from := fun _ => {| keyType := 0; data := [] |};
     parseNearAmount_scaled := fun q _ => Ok (toString q) |}.

(** The same account once the exchange holds [available] for it. *)
Definition with_storage (w : World) (available : string) : World :=
  {| accountId := accountId w;
     ADDRESS_REF_FARMING := ADDRESS_REF_FARMING w;
     ADDRESS_REF_EXCHANGE := ADDRESS_REF_EXCHANGE w;
     ADDRESS_WNEAR := ADDRESS_WNEAR w;
     ADDRESS_METAPOOL := ADDRESS_METAPOOL w;
     location_href := location_href w;
     list_user_seeds := list_user_seeds w;
     get_deposits := get_deposits w;
     storage_balance_of := fun _ =>
       Ok (Some {| total := Some available; available := Some available |});
     get_pool_shares := get_pool_shares w;
     get_pool := get_pool w;
     accessKeyForTransaction := accessKeyForTransaction w;
     block_header_hash := block_header_hash w;
     baseDecode := baseDecode w;
     PublicKey_from := PublicKey_from w;
     parseNearAmount_scaled := parseNearAmount_scaled w |}.

(** ** Specification-side definitions *)

(** An amount: a decimal string that reads as a non-negative BigInt. *)
Definition is_amount (s : string) (z : Z) : Prop := BigInt s = Ok z /\ 0 <= z.

(** The [add_liquidity] action of a position whose amounts read as [zs]. *)
Definition add_liquidity_action (position : Position) (zs : list Z) : Action :=
  functionCall "add_liquidity"
    (JObj [("pool_id", JNum (pool_id position));
           ("amounts", JArr (List.map JStr (position_amounts position)));
           ("min_amounts",
            JArr (List.map (fun a => JStr (toString (a * 999 / 1000))) zs))])
    100000000000000 LP_STORAGE_AMOUNT.

(** The estimate as the specification words it: the least, over all the
    tokens, of floor(total * supplied[i] / pool[i]), less 0.3%. *)
Definition lp_shares_from_amounts_spec (pool_total_shares : Z)
           (pool_amounts supplied_amounts : list Z) : Z :=
  let candidates :=
    zip_with (fun p a => pool_total_shares * a / p)
             pool_amounts supplied_amounts in
  match candidates with
  | [] => 0
  | c :: cs => fold_left Z.min cs c * 997 / 1000
  end.

(** What the code computes: the reduction starts from the pool amount of
    token 0, taken as if it were a candidate, and compares it with the
    candidates of the tokens from index 1 on. *)
Definition lp_shares_reduced (pool_total_shares : Z)
           (pool_amounts supplied_amounts : list Z) : Z :=
  match pool_amounts with
  | [] => 0
  | p0 :: ps =>
      fold_left Z.min
        (zip_with (fun p a => pool_total_shares * a / p)
                  ps (drop 1 supplied_amounts)) p0
      * 997 / 1000
  end.

Definition is_positive_amount (s : string) (z : Z) : Prop :=
  BigInt s = Ok z /\ 0 < z.

(** Whether a key holds an [@], as every seed key does. *)
Fixpoint has_at (s : string) : bool :=
  match s with
  | EmptyString => false
  | String c s' => if Ascii.eqb c "@" then true else has_at s'
  end.

(** The balance [getTokenBalancesOnRef] gives for one token. *)
Definition balance_read (deposits : gmap string string) (token : string)
  : value :=
  match deposits !! token with
  | Some EmptyString => VString "0"
  | Some s => VString s
  | None => if inherited token then VInherited token else VString "0"
  end.

(** The transaction [makeTransaction] returns, with the default offset, once
    the key lookup answered [key] and the block fetch answered [hash]. *)
Definition built (w : World) (key : AccessKeyInfo) (hash : string)
           (receiver : string) (acts : list Action) : Transaction :=
  createTransaction (accountId w) (PublicKey_from w (public_key key)) receiver
                    (access_key_nonce key + 1) acts (baseDecode w hash).

(** The account signs every call with the same access key, and the block
    fetch answers. *)
Definition key_resolved (w : World) (key : AccessKeyInfo) (hash : string)
  : Prop :=
  (forall receiver acts, accessKeyForTransaction w receiver acts = Ok (Some key))
  /\ block_header_hash w = Ok hash.

(** The [ft_transfer_call] that deposits [d] on the exchange. *)
Definition deposit_action (w : World) (d : Deposit) : Action :=
  functionCall "ft_transfer_call"
    (JObj [("receiver_id", JStr (ADDRESS_REF_EXCHANGE w));
           ("amount", JStr (amount d));
           ("msg", JStr "")])
    150000000000000 "1".

(** A concrete [JSON.stringify] for the runs below; only the shape of the
    swap message depends on it. *)
Definition sample_stringify (j : json) : string :=
  match j with
  | JObj _ => "{}"
  | _ => "null"
  end.

(** The same account when every contract answers [storage_balance] to
    [storage_balance_of]. *)
Definition with_storage_answer (w : World)
           (storage_balance : option StorageBalance) : World :=
  {| accountId := accountId w;
     ADDRESS_REF_FARMING := ADDRESS_REF_FARMING w;
     ADDRESS_REF_EXCHANGE := ADDRESS_REF_EXCHANGE w;
     ADDRESS_WNEAR := ADDRESS_WNEAR w;
     ADDRESS_METAPOOL := ADDRESS_METAPOOL w;
     location_href := location_href w;
     list_user_seeds := list_user_seeds w;
     get_deposits := get_deposits w;
     storage_balance_of := fun _ => Ok storage_balance;
     get_pool_shares := get_pool_shares w;
     get_pool := get_pool w;
     accessKeyForTransaction := accessKeyForTransaction w;
     block_header_hash := block_header_hash w;
     baseDecode := baseDecode w;
     PublicKey_from := PublicKey_from w;
     parseNearAmount_scaled := parseNearAmount_scaled w |}.

(** ** The JavaScript fragment: lemmas *)

Arguments BigInt : simpl never.
Arguments toString : simpl never.

Lemma to_int_not_nil (z : Z) :
  Z.to_int z <> Decimal.Pos Decimal.Nil /\ Z.to_int z <> Decimal.Neg Decimal.Nil.
Proof.
  destruct z as [|p|p]; simpl; split; try discriminate;
    intros [= H]; now apply (DecimalPos.Unsigned.to_uint_nonnil p).
Qed.

(** Printing a BigInt and reading it back gives the same BigInt. *)
Lemma BigInt_toString (z : Z) : BigInt (toString z) = Ok z.
Proof.
  unfold BigInt, toString.
  destruct (to_int_not_nil z) as [Hp Hn].
  rewrite NilZero.isi by assumption.
  now rewrite DecimalZ.of_to.
Qed.

Lemma toString_inj (a b : Z) : toString a = toString b -> a = b.
Proof.
  intros H. apply (f_equal BigInt) in H.
  rewrite !BigInt_toString in H. congruence.
Qed.

Lemma BigInt_999 : BigInt "999" = Ok 999.
Proof. reflexivity. Qed.

Lemma BigInt_997 : BigInt "997" = Ok 997.
Proof. reflexivity. Qed.

Lemma BigInt_1000 : BigInt "1000" = Ok 1000.
Proof. reflexivity. Qed.

Lemma BigInt_MIN_DEPOSIT_PER_TOKEN :
  BigInt MIN_DEPOSIT_PER_TOKEN = Ok (5 * 10 ^ 21).
Proof. vm_compute. reflexivity. Qed.

Lemma BigInt_FARM_STORAGE_BALANCE :
  BigInt FARM_STORAGE_BALANCE = Ok (45 * 10 ^ 21).
Proof. vm_compute. reflexivity. Qed.

Lemma div_pos (a b : Z) : 0 <= a -> 0 < b -> JS.div a b = Ok (a / b).
Proof.
  intros Ha Hb. unfold JS.div.
  destruct (Z.eqb_spec b 0); [lia|].
  now rewrite Z.quot_div_nonneg.
Qed.

Lemma rem_pos (a b : Z) : 0 <= a -> 0 < b -> JS.rem a b = Ok (a mod b).
Proof.
  intros Ha Hb. unfold JS.rem.
  destruct (Z.eqb_spec b 0); [lia|].
  now rewrite Z.rem_mod_nonneg.
Qed.

Lemma div_nonzero (a b : Z) : b <> 0 -> JS.div a b = Ok (Z.quot a b).
Proof.
  intros Hb. unfold JS.div. now destruct (Z.eqb_spec b 0).
Qed.

Lemma Array_map_Forall2 {A B C} (f : A -> result B) (g : C -> B)
      (R : A -> C -> Prop) (l : list A) (zs : list C) :
  (forall a c, R a c -> f a = Ok (g c)) ->
  Forall2 R l zs -> Array_map f l = Ok (List.map g zs).
Proof.
  intros Hf H. induction H as [|a c l zs Hac _ IH]; simpl.
  - reflexivity.
  - now rewrite (Hf _ _ Hac), IH.
Qed.

(** ** Amount arithmetic: [roundUpToNearest] *)

Lemma round_up_arith (x m : Z) :
  0 <= x -> 0 < m ->
  x - x mod m + (if x mod m =? 0 then 0 else m) = x + (m - x mod m) mod m.
Proof.
  intros Hx Hm.
  pose proof (Z.mod_pos_bound x m Hm) as Hr.
  destruct (Z.eqb_spec (x mod m) 0) as [E|E].
  - rewrite E, !Z.sub_0_r, Z.mod_same by lia. lia.
  - rewrite (Z.mod_small (m - x mod m) m) by lia. lia.
Qed.

Lemma round_up_multiple (x m : Z) :
  0 < m -> (x + (m - x mod m) mod m) mod m = 0.
Proof.
  intros Hm.
  rewrite Z.add_mod, Z.mod_mod by lia.
  rewrite <- Z.add_mod by lia.
  replace (x + (m - x mod m)) with (m + (x - x mod m)) by lia.
  rewrite (Z.div_mod x m) at 1 by lia.
  replace (m + (m * (x / m) + x mod m - x mod m)) with ((1 + x / m) * m) by lia.
  apply Z.mod_mul. lia.
Qed.

Lemma roundUpToNearest_value (x m : string) (zx zm : Z) :
  BigInt x = Ok zx -> BigInt m = Ok zm -> 0 <= zx -> 0 < zm ->
  roundUpToNearest x m = Ok (toString (zx + (zm - zx mod zm) mod zm)).
Proof.
  intros Hx Hm Hx0 Hm0.
  unfold roundUpToNearest. rewrite Hx, Hm. cbn [bind].
  rewrite rem_pos by assumption. cbn [bind].
  now rewrite round_up_arith.
Qed.

(** C3: for non-negative decimal strings [x] and positive [m],
    [roundUpToNearest(x, m)] is [x + ((m - x mod m) mod m)]: a multiple of
    [m] with [result - m < x <= result], which is [x] itself when [x] is
    already a multiple of [m]; and (0,5), (39,5), (40,5), (41,5) give 0, 40,
    40, 45. *)
Theorem roundUpToNearest_spec (x m : string) (zx zm : Z) :
  BigInt x = Ok zx -> BigInt m = Ok zm -> 0 <= zx -> 0 < zm ->
  (exists r : Z,
      roundUpToNearest x m = Ok (toString r)
      /\ r = zx + ((zm - zx mod zm) mod zm)
      /\ r mod zm = 0
      /\ r - zm < zx <= r
      /\ (zx mod zm = 0 -> r = zx))
  /\ roundUpToNearest "0" "5" = Ok "0"
  /\ roundUpToNearest "39" "5" = Ok "40"
  /\ roundUpToNearest "40" "5" = Ok "40"
  /\ roundUpToNearest "41" "5" = Ok "45".
Proof.
  intros Hx Hm Hx0 Hm0.
  split; [|repeat split; reflexivity].
  exists (zx + ((zm - zx mod zm) mod zm)).
  pose proof (Z.mod_pos_bound zx zm Hm0) as Hr.
  pose proof (Z.mod_pos_bound (zm - zx mod zm) zm Hm0) as Hr'.
  split; [|split; [reflexivity|split; [now apply round_up_multiple|split]]].
  - now apply roundUpToNearest_value.
  - destruct (Z.eq_dec (zx mod zm) 0) as [E|E].
    + rewrite E, !Z.sub_0_r, Z.mod_same by lia. lia.
    + rewrite (Z.mod_small (zm - zx mod zm) zm) by lia. lia.
  - intros E. rewrite E, !Z.sub_0_r, Z.mod_same by lia. lia.
Qed.

Lemma roundUpToNearest_spec_witness :
  (exists r : Z,
      roundUpToNearest "41" "5" = Ok (toString r)
      /\ r = 41 + ((5 - 41 mod 5) mod 5)
      /\ r mod 5 = 0
      /\ r - 5 < 41 <= r
      /\ (41 mod 5 = 0 -> r = 41))
  /\ roundUpToNearest "0" "5" = Ok "0"
  /\ roundUpToNearest "39" "5" = Ok "40"
  /\ roundUpToNearest "40" "5" = Ok "40"
  /\ roundUpToNearest "41" "5" = Ok "45".
Proof.
  apply (roundUpToNearest_spec "41" "5" 41 5); [reflexivity|reflexivity|lia|lia].
Defined.

(** ** AMM estimates *)

(** C5: for amounts [user_shares], [total_shares > 0] and [amounts],
    [calcMinLPAmountsOut] returns, per token,
    floor(floor(amounts[i] * user_shares / total_shares) * 999 / 1000);
    for 100, 1000 and [500, 900] that is [49, 89]. *)
Theorem calcMinLPAmountsOut_spec (user_shares total_shares : string)
        (amounts : list string) (u t : Z) (zs : list Z) :
  is_amount user_shares u ->
  BigInt total_shares = Ok t -> 0 < t ->
  Forall2 is_amount amounts zs ->
  calcMinLPAmountsOut user_shares total_shares amounts
  = Ok (List.map (fun a => toString (a * u / t * 999 / 1000)) zs)
  /\ calcMinLPAmountsOut "100" "1000" ["500"; "900"] = Ok ["49"; "89"].
Proof.
  intros [Hu Hu0] Ht Ht0 Hall. split; [|reflexivity].
  unfold calcMinLPAmountsOut.
  apply Array_map_Forall2 with (R := is_amount); [|assumption].
  intros s a [Ha Ha0]. rewrite Ha, Hu, Ht. cbn [bind].
  rewrite div_pos by (try apply Z.mul_nonneg_nonneg; lia). cbn [bind].
  rewrite BigInt_999, BigInt_1000. cbn [bind].
  rewrite div_pos; [reflexivity| |lia].
  apply Z.mul_nonneg_nonneg; [|lia].
  apply Z.div_pos; [apply Z.mul_nonneg_nonneg|]; lia.
Qed.

Lemma calcMinLPAmountsOut_spec_witness :
  calcMinLPAmountsOut "7" "3" ["10"; "0"]
  = Ok (List.map (fun a => toString (a * 7 / 3 * 999 / 1000)) [10; 0])
  /\ calcMinLPAmountsOut "100" "1000" ["500"; "900"] = Ok ["49"; "89"].
Proof.
  apply (calcMinLPAmountsOut_spec "7" "3" ["10"; "0"] 7 3 [10; 0]).
  - split; [reflexivity|lia].
  - reflexivity.
  - lia.
  - repeat constructor; lia.
Defined.

(** C6: [addLiquidity] emits one [add_liquidity] action per position, whose
    [min_amounts] are, per token, floor(amounts[i] * 999 / 1000); an amount
    of 1000 gives a minimum of 999.  The actions go to the exchange in a
    single transaction. *)
Theorem addLiquidity_min_amounts (w : World) (positions : list Position)
        (vals : list (list Z)) :
  Forall2 (fun position zs => Forall2 is_amount (position_amounts position) zs)
          positions vals ->
  addLiquidity_refActions positions
  = Ok (zip_with add_liquidity_action positions vals)
  /\ addLiquidity w positions
     = (let* tx := makeTransaction w (ADDRESS_REF_EXCHANGE w)
                     (zip_with add_liquidity_action positions vals) None in
        Ok [tx])
  /\ addLiquidity_refActions [ {| pool_id := 535; position_amounts := ["1000"] |} ]
     = Ok [ add_liquidity_action
              {| pool_id := 535; position_amounts := ["1000"] |} [1000] ]
  /\ toString (1000 * 999 / 1000) = "999".
Proof.
  intros Hall.
  assert (Hacts : addLiquidity_refActions positions
                  = Ok (zip_with add_liquidity_action positions vals)).
  { unfold addLiquidity_refActions.
    induction Hall as [|position zs positions vals Hpos _ IH]; cbn [Array_map bind].
    - reflexivity.
    - rewrite (Array_map_Forall2 _ (fun a => toString (a * 999 / 1000))
                                   is_amount _ zs); [|clear|assumption].
      + cbn [bind]. rewrite IH. cbn [bind]. unfold add_liquidity_action.
        now rewrite List.map_map.
      + intros s a [Ha Ha0]. rewrite Ha, BigInt_999, BigInt_1000. cbn [bind].
        now rewrite div_pos by lia. }
  split; [assumption|split; [|split; reflexivity]].
  unfold addLiquidity. rewrite Hacts. simpl.
  now destruct (makeTransaction _ _ _ _).
Qed.

Lemma addLiquidity_min_amounts_witness :
  addLiquidity_refActions
    [ {| pool_id := 535; position_amounts := ["1000"; "7"] |} ]
  = Ok (zip_with add_liquidity_action
          [ {| pool_id := 535; position_amounts := ["1000"; "7"] |} ]
          [ [1000; 7] ])
  /\ addLiquidity sample_world
       [ {| pool_id := 535; position_amounts := ["1000"; "7"] |} ]
     = (let* tx := makeTransaction sample_world
                     (ADDRESS_REF_EXCHANGE sample_world)
                     (zip_with add_liquidity_action
                        [ {| pool_id := 535;
                             position_amounts := ["1000"; "7"] |} ]
                        [ [1000; 7] ]) None in
        Ok [tx])
  /\ addLiquidity_refActions [ {| pool_id := 535; position_amounts := ["1000"] |} ]
     = Ok [ add_liquidity_action
              {| pool_id := 535; position_amounts := ["1000"] |} [1000] ]
  /\ toString (1000 * 999 / 1000) = "999".
Proof.
  apply (addLiquidity_min_amounts sample_world
           [ {| pool_id := 535; position_amounts := ["1000"; "7"] |} ]
           [ [1000; 7] ]).
  repeat constructor; lia.
Defined.

(** ** Transaction builder *)

(** C7: given the answers of the key lookup and of the block fetch,
    [makeTransaction] fails, with the no-matching-key error, exactly when
    the lookup found no access key; otherwise it returns a transaction for
    that receiver and those actions whose nonce is the key's nonce plus the
    offset, and the offset is 1 when the caller gives none. *)
Theorem makeTransaction_spec (w : World) (receiver : string)
        (acts : list Action) (offset : option Z)
        (key : option AccessKeyInfo) (hash : string) :
  accessKeyForTransaction w receiver acts = Ok key ->
  block_header_hash w = Ok hash ->
  (key = None <->
   makeTransaction w receiver acts offset
   = Throw (Error ("Cannot find matching key for transaction sent to "
                     +:+ receiver)))
  /\ (key = None <-> exists e, makeTransaction w receiver acts offset = Throw e)
  /\ (forall accessKey, key = Some accessKey ->
      exists tx,
        makeTransaction w receiver acts offset = Ok tx
        /\ signerId tx = accountId w
        /\ receiverId tx = receiver
        /\ actions tx = acts
        /\ nonce tx = access_key_nonce accessKey + default 1 offset)
  /\ (forall accessKey, key = Some accessKey ->
      exists tx,
        makeTransaction w receiver acts None = Ok tx
        /\ nonce tx = access_key_nonce accessKey + 1).
Proof.
  intros Hkey Hhash. unfold makeTransaction. rewrite Hkey, Hhash. cbn [bind].
  destruct key as [accessKey|].
  - repeat split; try discriminate.
    + intros [e He]. discriminate.
    + intros ak [= <-]. eexists. split; [reflexivity|]. now cbn.
    + intros ak [= <-]. eexists. split; [reflexivity|]. now cbn.
  - repeat split; try discriminate; eauto.
Qed.

Lemma makeTransaction_spec_witness :
  (Some sample_key = None <->
   makeTransaction sample_world "wrap.near" [] (Some 2)
   = Throw (Error ("Cannot find matching key for transaction sent to "
                     +:+ "wrap.near")))
  /\ (Some sample_key = None <->
      exists e, makeTransaction sample_world "wrap.near" [] (Some 2) = Throw e)
  /\ (forall accessKey, Some sample_key = Some accessKey ->
      exists tx,
        makeTransaction sample_world "wrap.near" [] (Some 2) = Ok tx
        /\ signerId tx = accountId sample_world
        /\ receiverId tx = "wrap.near"
        /\ actions tx = []
        /\ nonce tx = access_key_nonce accessKey + default 1 (Some 2))
  /\ (forall accessKey, Some sample_key = Some accessKey ->
      exists tx,
        makeTransaction sample_world "wrap.near" [] None = Ok tx
        /\ nonce tx = access_key_nonce accessKey + 1).
Proof.
  apply (makeTransaction_spec sample_world "wrap.near" [] (Some 2)
           (Some sample_key)
           "9MzuZrRPW1BGpFnZJUJg6SzCrixPpJDfjsNeUobRXsLe");
    reflexivity.
Defined.

(** ** Helpers *)

(** C9: [estimateStnearOut] returns "0" whenever [price] reads as the
    BigInt zero, whatever the amount and the accuracy; and when [price]
    reads as a non-zero BigInt the division is the truncating quotient by
    that non-zero divisor, so no division by zero is ever evaluated. *)
Theorem estimateStnearOut_division_guarded (w : World) (amount price : string)
        (accuracy : option Z) :
  (BigInt price = Ok 0 -> estimateStnearOut w amount price accuracy = Ok "0")
  /\ (forall p, BigInt price = Ok p -> p <> 0 ->
      estimateStnearOut w amount price accuracy
      = (let* zeros := String_repeat "0" (default 5 accuracy) in
         let* a := BigInt (amount +:+ zeros) in
         parseNearAmount_scaled w (Z.quot a p) (default 5 accuracy))).
Proof.
  unfold estimateStnearOut. split.
  - intros ->. reflexivity.
  - intros p -> Hp. cbn [bind].
    destruct (Z.eqb_spec p 0) as [E|_]; [contradiction|].
    destruct (String_repeat "0" (default 5 accuracy)) as [zeros|e];
      cbn [bind]; [|reflexivity].
    destruct (BigInt (amount +:+ zeros)) as [a|e]; cbn [bind]; [|reflexivity].
    now rewrite div_nonzero.
Qed.

Lemma estimateStnearOut_division_guarded_witness :
  estimateStnearOut sample_world "not a number" "000" (Some (-3)) = Ok "0"
  /\ estimateStnearOut sample_world "7" "2" (Some 1) = Ok "35".
Proof.
  split.
  - apply (proj1 (estimateStnearOut_division_guarded
                    sample_world "not a number" "000" (Some (-3)))).
    reflexivity.
  - rewrite (proj2 (estimateStnearOut_division_guarded
                      sample_world "7" "2" (Some 1)) 2); [reflexivity| |lia].
    reflexivity.
Defined.

(** ** View defaults *)

Lemma has_at_app (a b : string) : has_at (a +:+ "@" +:+ b) = true.
Proof.
  induction a as [|c a IH]; [reflexivity|].
  change (String c a +:+ "@" +:+ b) with (String c (a +:+ "@" +:+ b)).
  cbn [has_at]. now destruct (Ascii.eqb c "@").
Qed.

(** A key that holds an [@] is none of the names of [Object.prototype]. *)
Lemma has_at_not_inherited (key : string) :
  has_at key = true -> inherited key = false.
Proof.
  intros Hat. unfold inherited, Object_prototype_names. cbn [existsb].
  repeat match goal with
         | |- context [String.eqb key ?n] =>
             destruct (String.eqb_spec key n) as [->|_];
             [vm_compute in Hat; discriminate|]
         end.
  reflexivity.
Qed.

Lemma inherited_In (key : string) :
  In key Object_prototype_names -> inherited key = true.
Proof.
  intros Hin. unfold inherited. apply existsb_exists.
  exists key. split; [assumption|apply String.eqb_refl].
Qed.

(** The stake is the stored string, or "0" when there is no entry or an
    empty one: the seed key holds an [@] and is never an inherited name. *)
Lemma getFarmingStake_value (w : World) (pool : Z)
      (seeds : gmap string string) :
  list_user_seeds w = Ok seeds ->
  getFarmingStake w pool
  = Ok (VString
          (match seeds !! (ADDRESS_REF_EXCHANGE w +:+ "@" +:+ toString pool) with
           | Some EmptyString | None => "0"
           | Some s => s
           end)).
Proof.
  intros Hseeds. unfold getFarmingStake, get_property. rewrite Hseeds.
  cbn [bind].
  rewrite (has_at_not_inherited _ (has_at_app _ _)).
  now destruct (seeds !! _) as [[|c s]|].
Qed.

(** The balances, token by token. *)
Lemma getTokenBalancesOnRef_value (w : World) (tokens : list string)
      (deposits : gmap string string) :
  get_deposits w = Ok deposits ->
  getTokenBalancesOnRef w tokens
  = Ok (List.map (balance_read deposits) tokens).
Proof.
  intros Hdeps. unfold getTokenBalancesOnRef, get_property, balance_read.
  rewrite Hdeps. cbn [bind]. f_equal. apply List.map_ext. intros token.
  destruct (deposits !! token) as [[|c s]|]; [reflexivity..|].
  now destruct (inherited token).
Qed.

(** C10: [getTokenBalancesOnRef] does not return "0" for every token that
    is absent from the deposits: for an absent token that is a name of
    [Object.prototype], such as "constructor", the property read finds the
    inherited member, which is truthy, and returns it in place of a
    balance. *)
Theorem getTokenBalancesOnRef_inherited_name (w : World)
        (tokens : list string) (deposits : gmap string string)
        (i : nat) (token : string) :
  get_deposits w = Ok deposits ->
  tokens !! i = Some token ->
  deposits !! token = None ->
  In token Object_prototype_names ->
  exists balances : list value,
    getTokenBalancesOnRef w tokens = Ok balances
    /\ length balances = length tokens
    /\ balances !! i = Some (VInherited token)
    /\ balances !! i <> Some (VString "0").
Proof.
  intros Hdeps Hi Habsent Hin.
  rewrite (getTokenBalancesOnRef_value w tokens deposits Hdeps).
  eexists. split; [reflexivity|]. split; [apply List.length_map|].
  assert (Hb : List.map (balance_read deposits) tokens !! i
               = Some (VInherited token)).
  { rewrite list_lookup_fmap, Hi. cbn. unfold balance_read.
    now rewrite Habsent, inherited_In. }
  split; [exact Hb|]. rewrite Hb. discriminate.
Qed.

Lemma getTokenBalancesOnRef_inherited_name_witness :
  exists balances : list value,
    getTokenBalancesOnRef sample_world ["wrap.near"; "constructor"]
    = Ok balances
    /\ length balances = length ["wrap.near"; "constructor"]
    /\ balances !! 1%nat = Some (VInherited "constructor")
    /\ balances !! 1%nat <> Some (VString "0").
Proof.
  apply (getTokenBalancesOnRef_inherited_name sample_world
           ["wrap.near"; "constructor"] {[ "wrap.near" := "10" ]} 1
           "constructor").
  - reflexivity.
  - reflexivity.
  - now apply lookup_singleton_ne.
  - now left.
Defined.

(** ** Recipe orchestration *)

(** The request [passToWallet] hands over when every operation resolves. *)
Lemma passToWallet_resolved (w : World) (txss : list (list Transaction)) :
  passToWallet w (List.map Ok txss)
  = Ok {| transactions := concat txss; callbackUrl := location_href w |}.
Proof.
  unfold passToWallet.
  assert (H : Promise_all (List.map Ok txss) = Ok txss).
  { induction txss as [|txs txss IH]; cbn; [reflexivity|now rewrite IH]. }
  now rewrite H.
Qed.

(** C8: once the pool is read and the LP shares are estimated,
    [stepTwoAction] hands to the wallet the token deposits, the liquidity
    provision and, exactly when [isFarmActive] is true, the farm stake of
    the estimated shares in the stNEAR<>wNEAR pool; otherwise only the first
    two. *)
Theorem stepTwoAction_farm_gate
        (farmStakeV2 : World -> string -> Z -> result (list Transaction))
        (w : World) (isFarmActive : option bool)
        (stnearAmount wnearAmount : string)
        (info : PoolInfo) (lpShares : string) :
  getPoolInfo w STNEAR_WNEAR_POOL_ID = Ok info ->
  calcLpSharesFromAmounts (total_shares info) (pool_amounts info)
                          [stnearAmount; wnearAmount] = Ok lpShares ->
  let deposits :=
    depositTokensOnRef w
      [ {| token := ADDRESS_METAPOOL w; amount := stnearAmount |};
        {| token := ADDRESS_WNEAR w; amount := wnearAmount |} ] in
  let liquidity :=
    addLiquidity w
      [ {| pool_id := STNEAR_WNEAR_POOL_ID;
           position_amounts := [stnearAmount; wnearAmount] |} ] in
  let farm := farmStakeV2 w lpShares STNEAR_WNEAR_POOL_ID in
  (isFarmActive = Some true ->
   stepTwoAction_actions farmStakeV2 w isFarmActive stnearAmount wnearAmount
   = Ok [deposits; liquidity; farm]
   /\ stepTwoAction farmStakeV2 w isFarmActive stnearAmount wnearAmount
      = passToWallet w [deposits; liquidity; farm])
  /\ (isFarmActive <> Some true ->
      stepTwoAction_actions farmStakeV2 w isFarmActive stnearAmount wnearAmount
      = Ok [deposits; liquidity]
      /\ stepTwoAction farmStakeV2 w isFarmActive stnearAmount wnearAmount
         = passToWallet w [deposits; liquidity])
  /\ (forall d l f,
         deposits = Ok d -> liquidity = Ok l -> farm = Ok f ->
         stepTwoAction farmStakeV2 w isFarmActive stnearAmount wnearAmount
         = Ok {| transactions :=
                   if default false isFarmActive
                   then (d ++ l ++ f)%list else (d ++ l)%list;
                 callbackUrl := location_href w |}).
Proof.
  intros Hinfo Hlp deposits liquidity farm.
  unfold stepTwoAction, stepTwoAction_actions.
  rewrite Hinfo. cbn [bind]. rewrite Hlp. cbn [bind].
  fold deposits liquidity farm.
  split; [|split].
  - intros ->. now cbn.
  - intros Hoff.
    destruct isFarmActive as [[|]|]; [contradiction| |]; now cbn.
  - intros d l f -> -> ->.
    destruct isFarmActive as [[|]|]; cbn [default from_option id app];
      [change [Ok d; Ok l; Ok f] with (List.map Ok [d; l; f])
      |change [Ok d; Ok l] with (List.map Ok [d; l])
      |change [Ok d; Ok l] with (List.map Ok [d; l])];
      rewrite passToWallet_resolved; cbn [concat]; now rewrite ?app_nil_r.
Qed.

Lemma stepTwoAction_farm_gate_witness :
  let w := sample_world in
  let deposits :=
    depositTokensOnRef w
      [ {| token := ADDRESS_METAPOOL w; amount := "10" |};
        {| token := ADDRESS_WNEAR w; amount := "20" |} ] in
  let liquidity :=
    addLiquidity w
      [ {| pool_id := STNEAR_WNEAR_POOL_ID;
           position_amounts := ["10"; "20"] |} ] in
  let farm := farmStake w "99" STNEAR_WNEAR_POOL_ID in
  (Some true = Some true ->
   stepTwoAction_actions farmStake w (Some true) "10" "20"
   = Ok [deposits; liquidity; farm]
   /\ stepTwoAction farmStake w (Some true) "10" "20"
      = passToWallet w [deposits; liquidity; farm])
  /\ (Some true <> Some true ->
      stepTwoAction_actions farmStake w (Some true) "10" "20"
      = Ok [deposits; liquidity]
      /\ stepTwoAction farmStake w (Some true) "10" "20"
         = passToWallet w [deposits; liquidity])
  /\ (forall d l f,
         deposits = Ok d -> liquidity = Ok l -> farm = Ok f ->
         stepTwoAction farmStake w (Some true) "10" "20"
         = Ok {| transactions :=
                   if default false (Some true)
                   then (d ++ l ++ f)%list else (d ++ l)%list;
                 callbackUrl := location_href w |}).
Proof.
  apply (stepTwoAction_farm_gate farmStake sample_world (Some true) "10" "20"
           {| fee := 30; user_shares := "0"; total_shares := "1000000";
              pool_amounts := ["100"; "200"] |} "99");
    reflexivity.
Defined.

(** ** LP share estimate *)

Lemma Array_reduce_from_min (t : string) (zt : Z) (lp_amounts : list string)
      (f : string -> string -> nat -> result string) :
  is_amount t zt ->
  (forall prevValue poolAmt index,
      f prevValue poolAmt index
      = (let* t := BigInt t in
         let* a := BigInt_of (lp_amounts !! index) in
         let* p := BigInt poolAmt in
         let* currValue := JS.div (t * a) p in
         let* prev := BigInt prevValue in
         Ok (if prev <? currValue then prevValue else toString currValue))) ->
  forall (ps : list string) (vps zs : list Z) (acc : string) (v : Z)
         (index : nat),
    Forall2 is_positive_amount ps vps ->
    Forall2 is_amount (drop index lp_amounts) zs ->
    (length ps <= length zs)%nat ->
    is_amount acc v ->
    exists acc',
      Array_reduce_from f acc ps index = Ok acc'
      /\ is_amount acc'
           (fold_left Z.min (zip_with (fun p a => zt * a / p) vps zs) v).
Proof.
  intros [Ht Ht0] Hf ps.
  induction ps as [|poolAmt ps IH]; intros vps zs acc v index Hps Hzs Hlen Hacc.
  - inversion Hps; subst. exists acc. now split.
  - inversion Hps as [|? p ? vps' [Hp Hp0] Hps']; subst.
    destruct zs as [|a zs]; [cbn in Hlen; lia|].
    destruct (drop index lp_amounts) as [|sa rest] eqn:Hdrop;
      [inversion Hzs|].
    inversion Hzs as [|? ? ? ? [Ha Ha0] Hzs']; subst.
    assert (Hlook : lp_amounts !! index = Some sa).
    { rewrite <- (Nat.add_0_r index), <- lookup_drop, Hdrop. reflexivity. }
    assert (Hrest : drop (S index) lp_amounts = rest).
    { pose proof (drop_S _ _ _ Hlook) as Hd. rewrite Hdrop in Hd.
      now injection Hd. }
    destruct Hacc as [Hacc Hv0].
    assert (Hc0 : 0 <= zt * a / p)
      by (apply Z.div_pos; [apply Z.mul_nonneg_nonneg|]; lia).
    assert (Hstep : f acc poolAmt index
                    = Ok (if v <? zt * a / p then acc
                          else toString (zt * a / p))).
    { rewrite Hf, Ht, Hlook. cbn [bind BigInt_of]. rewrite Ha, Hp. cbn [bind].
      rewrite div_pos by (try apply Z.mul_nonneg_nonneg; lia).
      cbn [bind]. now rewrite Hacc. }
    cbn [Array_reduce_from zip_with fold_left]. rewrite Hstep. cbn [bind].
    apply IH; [assumption|now rewrite Hrest|cbn in Hlen; lia|].
    destruct (Z.ltb_spec v (zt * a / p)) as [Hlt|Hge].
    + rewrite Z.min_l by lia. now split.
    + rewrite Z.min_r by lia. split; [apply BigInt_toString|assumption].
Qed.

(** [calcLpSharesFromAmounts] on a pool of positive amounts: token 0
    contributes its pool amount, not its candidate. *)
Lemma calcLpSharesFromAmounts_computes (pool_total_shares : string)
      (pool_amounts lp_amounts : list string) (zt : Z) (vps zs : list Z) :
  is_amount pool_total_shares zt ->
  Forall2 is_positive_amount pool_amounts vps ->
  Forall2 is_amount lp_amounts zs ->
  length pool_amounts = length lp_amounts ->
  pool_amounts <> [] ->
  calcLpSharesFromAmounts pool_total_shares pool_amounts lp_amounts
  = Ok (toString (lp_shares_reduced zt vps zs)).
Proof.
  intros Ht Hps Hzs Hlen Hne.
  destruct Hps as [|s0 p0 ps vps' [Hp0 Hp0pos] Hps]; [contradiction|].
  unfold calcLpSharesFromAmounts, Array_reduce, lp_shares_reduced.
  destruct (Array_reduce_from_min pool_total_shares zt lp_amounts _ Ht
              (fun _ _ _ => eq_refl) ps vps' (drop 1 zs) s0 p0 1%nat)
    as (acc' & Hred & Hacc & Hacc0).
  - assumption.
  - clear -Hzs. destruct Hzs; [constructor|assumption].
  - apply Forall2_length in Hzs. rewrite length_drop, <- Hzs, <- Hlen.
    cbn [length]. lia.
  - split; [assumption|lia].
  - rewrite Hred. cbn [bind]. rewrite Hacc, BigInt_997, BigInt_1000.
    cbn [bind]. now rewrite div_pos by lia.
Qed.

(** C1: on the specification's own example, total shares 1000000, pool
    [100, 200], supplied [10, 20], the specified estimate is 99700 and
    [calcLpSharesFromAmounts] returns "99": the reduction has no initial
    value, so the pool amount 100 of token 0 stands in for its candidate
    100000. *)
Theorem calcLpSharesFromAmounts_example :
  calcLpSharesFromAmounts "1000000" ["100"; "200"] ["10"; "20"] = Ok "99"
  /\ toString (lp_shares_from_amounts_spec 1000000 [100; 200] [10; 20])
     = "99700"
  /\ toString (lp_shares_reduced 1000000 [100; 200] [10; 20]) = "99"
  /\ calcLpSharesFromAmounts "1000000" ["100"] ["10"] = Ok "99"
  /\ calcLpSharesFromAmounts "1000000" [] [] = Throw EmptyReduce.
Proof. repeat split; vm_compute; reflexivity. Qed.

(** ** Storage deposit policy *)

(** [depositTokensOnRef] for a registered account whose available storage
    reads as [a]: a [storage_deposit] is emitted when [a] is at most
    [n * MIN_DEPOSIT_PER_TOKEN], and it attaches the shortfall rounded up
    to a multiple of [MIN_DEPOSIT_PER_TOKEN]. *)
Lemma depositTokensOnRef_refActions_registered (n : nat) (sb : StorageBalance)
      (s : string) (a : Z) :
  available sb = Some s -> is_amount s a ->
  let needed := Z.of_nat n * (5 * 10 ^ 21) in
  let shortfall := needed - a in
  depositTokensOnRef_refActions n (Some sb)
  = Ok (if a <=? needed
        then [functionCall "storage_deposit" (JObj []) 20000000000000
                (toString (shortfall
                           + (5 * 10 ^ 21 - shortfall mod (5 * 10 ^ 21))
                               mod (5 * 10 ^ 21)))]
        else []).
Proof.
  intros Hs [Ha Ha0] needed shortfall.
  unfold depositTokensOnRef_refActions.
  rewrite BigInt_MIN_DEPOSIT_PER_TOKEN, Hs. cbn [bind BigInt_of].
  rewrite Ha. cbn [bind]. fold needed.
  destruct (Z.leb_spec a needed) as [Hle|Hgt]; [|reflexivity].
  cbn [bind]. fold shortfall.
  rewrite (roundUpToNearest_value (toString shortfall) MIN_DEPOSIT_PER_TOKEN
             shortfall (5 * 10 ^ 21));
    [reflexivity|apply BigInt_toString|apply BigInt_MIN_DEPOSIT_PER_TOKEN| |lia].
  subst shortfall. lia.
Qed.

(** [depositTokensOnRef] with more storage than needed: no storage action,
    and one transaction per deposit. *)
Lemma depositTokensOnRef_enough_storage (w : World) (deposits : list Deposit)
      (sb : StorageBalance) (s : string) (a : Z) :
  storage_balance_of w (ADDRESS_REF_EXCHANGE w) = Ok (Some sb) ->
  available sb = Some s -> is_amount s a ->
  Z.of_nat (length deposits) * (5 * 10 ^ 21) < a ->
  depositTokensOnRef_refActions (length deposits) (Some sb) = Ok []
  /\ depositTokensOnRef w deposits
     = Promise_all
         (List.map (fun d =>
            makeTransaction w (token d)
              [functionCall "ft_transfer_call"
                 (JObj [("receiver_id", JStr (ADDRESS_REF_EXCHANGE w));
                        ("amount", JStr (amount d));
                        ("msg", JStr "")])
                 150000000000000 "1"] None) deposits).
Proof.
  intros Hview Hs Ha Hlt.
  assert (Hacts : depositTokensOnRef_refActions (length deposits) (Some sb)
                  = Ok []).
  { rewrite (depositTokensOnRef_refActions_registered _ sb s a Hs Ha).
    cbn zeta. destruct (Z.leb_spec a (Z.of_nat (length deposits) * (5 * 10 ^ 21)));
      [lia|reflexivity]. }
  split; [assumption|].
  unfold depositTokensOnRef. rewrite Hview. cbn [bind].
  rewrite Hacts. cbn [bind length Nat.leb app].
  now rewrite List.map_map.
Qed.

(** [farmStake] with the farm's storage balance already available: no
    storage action, and the staking transaction alone. *)
Lemma farmStake_enough_storage (w : World) (amount : string) (poolID : Z)
      (sb : StorageBalance) (s : string) (a : Z) :
  storage_balance_of w (ADDRESS_REF_FARMING w) = Ok (Some sb) ->
  available sb = Some s -> is_amount s a ->
  45 * 10 ^ 21 <= a ->
  farmStake_needs_storage (Some sb) = Ok false
  /\ farmStake w amount poolID
     = (let* tx :=
          makeTransaction w (ADDRESS_REF_EXCHANGE w)
            [functionCall "mft_transfer_call"
               (JObj [("receiver_id", JStr (ADDRESS_REF_FARMING w));
                      ("token_id", JStr (":" +:+ toString poolID));
                      ("amount", JStr amount);
                      ("msg", JStr "")])
               180000000000000 "1"] None in
        Ok [tx]).
Proof.
  intros Hview Hs [Ha Ha0] Hge.
  assert (Hneeds : farmStake_needs_storage (Some sb) = Ok false).
  { unfold farmStake_needs_storage. rewrite Hs. cbn [from_option id].
    rewrite Ha, BigInt_FARM_STORAGE_BALANCE, BigInt_MIN_DEPOSIT_PER_TOKEN.
    cbn [bind].
    destruct (Z.ltb_spec a (45 * 10 ^ 21)); [lia|].
    cbn [bind]. destruct (Z.ltb_spec a (5 * 10 ^ 21)); [lia|reflexivity]. }
  split; [assumption|].
  unfold farmStake. rewrite Hview. cbn [bind]. rewrite Hneeds.
  cbn [bind length Nat.ltb Nat.leb app Promise_all].
  now destruct (makeTransaction _ _ _ _).
Qed.

(** C2: with no storage balance on the exchange ([storage_balance_of]
    answers null) [depositTokensOnRef] reads [available] of null and throws,
    so no [storage_deposit] is emitted where the full requirement is due;
    and when [available] equals the requirement, which is not below it, a
    [storage_deposit] of "0" is emitted. *)
Theorem depositTokensOnRef_storage_check :
  (forall n : nat, depositTokensOnRef_refActions n None = Throw NullProperty)
  /\ depositTokensOnRef sample_world
       [ {| token := "meta-pool.near"; amount := "10" |};
         {| token := "wrap.near"; amount := "20" |} ]
     = Throw NullProperty
  /\ depositTokensOnRef_refActions 2
       (Some {| total := Some "10000000000000000000000";
                available := Some "10000000000000000000000" |})
     = Ok [functionCall "storage_deposit" (JObj []) 20000000000000 "0"]
  /\ depositTokensOnRef_refActions 2
       (Some {| total := Some "3000000000000000000001";
                available := Some "3000000000000000000001" |})
     = Ok [functionCall "storage_deposit" (JObj []) 20000000000000
             "10000000000000000000000"].
Proof. repeat split; vm_compute; reflexivity. Qed.

(** C4: when [available] is exactly [n * MIN_DEPOSIT_PER_TOKEN], at the
    required minimum, [depositTokensOnRef] still emits a [storage_deposit],
    of "0", and the storage transaction comes first in the returned list. *)
Theorem depositTokensOnRef_at_minimum :
  (forall n : nat,
      depositTokensOnRef_refActions n
        (Some {| total := None;
                 available := Some (toString (Z.of_nat n * (5 * 10 ^ 21))) |})
      = Ok [functionCall "storage_deposit" (JObj []) 20000000000000 "0"])
  /\ match
       depositTokensOnRef
         (with_storage sample_world "10000000000000000000000")
         [ {| token := "meta-pool.near"; amount := "10" |};
           {| token := "wrap.near"; amount := "20" |} ]
     with
     | Ok [storageTx; stnearTx; wnearTx] =>
         receiverId storageTx = "v2.ref-finance.near"
         /\ actions storageTx
            = [functionCall "storage_deposit" (JObj []) 20000000000000 "0"]
         /\ receiverId stnearTx = "meta-pool.near"
         /\ receiverId wnearTx = "wrap.near"
     | _ => False
     end.
Proof.
  split.
  - intros n.
    rewrite (depositTokensOnRef_refActions_registered n _
               (toString (Z.of_nat n * (5 * 10 ^ 21)))
               (Z.of_nat n * (5 * 10 ^ 21)));
      [|reflexivity|split; [apply BigInt_toString|lia]].
    cbn zeta. rewrite Z.leb_refl, Z.sub_diag. vm_compute. reflexivity.
  - vm_compute. repeat split.
Qed.

(** * Further properties of the services *)

(** ** Shared lemmas *)

Lemma makeTransaction_built (w : World) (key : AccessKeyInfo) (hash : string)
      (receiver : string) (acts : list Action) :
  key_resolved w key hash ->
  makeTransaction w receiver acts None = Ok (built w key hash receiver acts).
Proof.
  intros [Hkey Hhash]. unfold makeTransaction. now rewrite Hkey, Hhash.
Qed.

Lemma sample_key_resolved :
  key_resolved sample_world sample_key
               "9MzuZrRPW1BGpFnZJUJg6SzCrixPpJDfjsNeUobRXsLe".
Proof. split; reflexivity. Qed.

Lemma with_storage_key_resolved (s : string) :
  key_resolved (with_storage sample_world s) sample_key
               "9MzuZrRPW1BGpFnZJUJg6SzCrixPpJDfjsNeUobRXsLe".
Proof. split; reflexivity. Qed.

Lemma Promise_all_Ok {A} (xs : list A) : Promise_all (List.map Ok xs) = Ok xs.
Proof.
  induction xs as [|x xs IH]; cbn; [reflexivity|now rewrite IH].
Qed.

Lemma Promise_all_Throw {A} (ps : list (result A)) (e : exn) :
  In (Throw e) ps -> exists e', Promise_all ps = Throw e'.
Proof.
  induction ps as [|p ps IH]; intros Hin; [contradiction|].
  destruct p as [x|e0]; cbn; [|eauto].
  destruct Hin as [Heq|Hin]; [discriminate|].
  destruct (IH Hin) as [e' ->]. cbn. eauto.
Qed.

(** ** [roundUpToNearest], further *)

Lemma round_up_bounds (x m : Z) :
  0 <= x -> 0 < m ->
  let r := x + (m - x mod m) mod m in
  r mod m = 0 /\ r - m < x <= r.
Proof.
  intros Hx Hm r. split; [now apply round_up_multiple|].
  pose proof (Z.mod_pos_bound x m Hm) as Hr. subst r.
  destruct (Z.eq_dec (x mod m) 0) as [E|E].
  - rewrite E, !Z.sub_0_r, Z.mod_same by lia. lia.
  - rewrite (Z.mod_small (m - x mod m) m) by lia. lia.
Qed.

Lemma multiple_le (m a b : Z) :
  0 < m -> a mod m = 0 -> b mod m = 0 -> a - m < b -> a <= b.
Proof.
  intros Hm Ha Hb Hlt.
  apply Z.mod_divide in Ha; [|lia]. apply Z.mod_divide in Hb; [|lia].
  destruct Ha as [ka ->], Hb as [kb ->].
  assert (ka < kb + 1) by (apply (Z.mul_lt_mono_pos_r m); lia).
  apply Z.mul_le_mono_nonneg_r; lia.
Qed.

(** X1: rounding up is idempotent: the result of [roundUpToNearest(x, m)],
    rounded again to [m], is itself. *)
Theorem roundUpToNearest_idempotent (x m : string) (zx zm : Z) :
  BigInt x = Ok zx -> BigInt m = Ok zm -> 0 <= zx -> 0 < zm ->
  exists r : string,
    roundUpToNearest x m = Ok r /\ roundUpToNearest r m = Ok r.
Proof.
  intros Hx Hm Hx0 Hm0.
  destruct (round_up_bounds zx zm Hx0 Hm0) as [Hmul Hb].
  eexists. split; [apply roundUpToNearest_value; eassumption|].
  rewrite (roundUpToNearest_value _ m _ zm (BigInt_toString _) Hm) by lia.
  rewrite Hmul, Z.sub_0_r, Z.mod_same, Z.add_0_r by lia. reflexivity.
Qed.

Lemma roundUpToNearest_idempotent_witness :
  exists r : string,
    roundUpToNearest "41" "5" = Ok r /\ roundUpToNearest r "5" = Ok r.
Proof.
  apply (roundUpToNearest_idempotent "41" "5" 41 5);
    [reflexivity|reflexivity|lia|lia].
Defined.

(** X2: [roundUpToNearest(x, m)] is the least multiple of [m] that is at
    least [x]: it is a multiple of [m], it is at least [x], and every
    multiple of [m] that is at least [x] is at least the result; and it is
    monotone in [x]. *)
Theorem roundUpToNearest_least_monotone (x y m : string) (zx zy zm : Z) :
  BigInt x = Ok zx -> BigInt y = Ok zy -> BigInt m = Ok zm ->
  0 <= zx -> zx <= zy -> 0 < zm ->
  exists rx ry : Z,
    roundUpToNearest x m = Ok (toString rx)
    /\ roundUpToNearest y m = Ok (toString ry)
    /\ rx mod zm = 0 /\ zx <= rx
    /\ ry mod zm = 0 /\ zy <= ry
    /\ rx <= ry
    /\ forall k : Z, zx <= k * zm -> rx <= k * zm.
Proof.
  intros Hx Hy Hm Hx0 Hxy Hm0.
  destruct (round_up_bounds zx zm Hx0 Hm0) as [Hmx Hbx].
  destruct (round_up_bounds zy zm ltac:(lia) Hm0) as [Hmy Hby].
  do 2 eexists.
  split; [apply roundUpToNearest_value; eassumption|].
  split; [apply roundUpToNearest_value; try eassumption; lia|].
  split; [exact Hmx|]. split; [lia|].
  split; [exact Hmy|]. split; [lia|].
  split.
  - apply (multiple_le zm); [assumption..|lia].
  - intros k Hk. apply (multiple_le zm); [assumption..| |lia].
    apply Z.mod_mul. lia.
Qed.

Lemma roundUpToNearest_least_monotone_witness :
  exists rx ry : Z,
    roundUpToNearest "39" "5" = Ok (toString rx)
    /\ roundUpToNearest "41" "5" = Ok (toString ry)
    /\ rx mod 5 = 0 /\ 39 <= rx
    /\ ry mod 5 = 0 /\ 41 <= ry
    /\ rx <= ry
    /\ forall k : Z, 39 <= k * 5 -> rx <= k * 5.
Proof.
  apply (roundUpToNearest_least_monotone "39" "41" "5" 39 41 5);
    [reflexivity|reflexivity|reflexivity|lia|lia|lia].
Defined.

(** X3: outside the amounts, [roundUpToNearest] is no longer the ceiling:
    for a negative [x] that is not a multiple of [m] it returns a multiple
    of [m] strictly between [x + m] and [x + 2m], one step above the least
    multiple that is at least [x]. *)
Theorem roundUpToNearest_negative (x m : string) (zx zm : Z) :
  BigInt x = Ok zx -> BigInt m = Ok zm ->
  zx < 0 -> 0 < zm -> Z.rem zx zm <> 0 ->
  exists r : Z,
    roundUpToNearest x m = Ok (toString r)
    /\ r mod zm = 0
    /\ zx + zm < r < zx + 2 * zm
    /\ (r - zm) mod zm = 0 /\ zx <= r - zm.
Proof.
  intros Hx Hm Hx0 Hm0 Hrem.
  pose proof (Z.rem_bound_pos_neg zx zm Hm0 ltac:(lia)) as Hb.
  pose proof (Z.quot_rem' zx zm) as Hq.
  exists (zx - Z.rem zx zm + zm).
  split.
  - unfold roundUpToNearest. rewrite Hx, Hm. cbn [bind]. unfold JS.rem.
    destruct (Z.eqb_spec zm 0); [lia|]. cbn [bind].
    now destruct (Z.eqb_spec (Z.rem zx zm) 0).
  - assert (E : zx - Z.rem zx zm = Z.quot zx zm * zm) by lia.
    rewrite E. repeat split; try lia.
    + replace (Z.quot zx zm * zm + zm) with ((Z.quot zx zm + 1) * zm) by lia.
      apply Z.mod_mul. lia.
    + replace (Z.quot zx zm * zm + zm - zm) with (Z.quot zx zm * zm) by lia.
      apply Z.mod_mul. lia.
Qed.

Lemma roundUpToNearest_negative_witness :
  exists r : Z,
    roundUpToNearest "-7" "5" = Ok (toString r)
    /\ r mod 5 = 0
    /\ -7 + 5 < r < -7 + 2 * 5
    /\ (r - 5) mod 5 = 0 /\ -7 <= r - 5.
Proof.
  apply (roundUpToNearest_negative "-7" "5" (-7) 5);
    [reflexivity|reflexivity|lia|lia|].
  vm_compute. discriminate.
Defined.

(** ** [calcLpSharesFromAmounts], further *)

(** X4: on a pool whose amounts from token 1 on are positive, with an
    amount supplied for each of them, [calcLpSharesFromAmounts] returns
    floor(min(pool[0], c_1, ..., c_(n-1)) * 997 / 1000) with
    c_i = floor(total * supplied[i] / pool[i]): the pool amount of token 0
    stands where its candidate would, and the amount supplied for token 0
    is not read, whatever string it is. *)
Theorem calcLpSharesFromAmounts_reduced (pool_total_shares : string)
        (pool_amount0 : string) (pool_amounts : list string)
        (lp_amount0 : string) (lp_amounts : list string)
        (zt v0 : Z) (vps zs : list Z) :
  is_amount pool_total_shares zt ->
  is_amount pool_amount0 v0 ->
  Forall2 is_positive_amount pool_amounts vps ->
  Forall2 is_amount lp_amounts zs ->
  length pool_amounts = length lp_amounts ->
  calcLpSharesFromAmounts pool_total_shares (pool_amount0 :: pool_amounts)
                          (lp_amount0 :: lp_amounts)
  = Ok (toString
          (fold_left Z.min (zip_with (fun p a => zt * a / p) vps zs) v0
           * 997 / 1000)).
Proof.
  intros Ht Hp0 Hps Hzs Hlen.
  unfold calcLpSharesFromAmounts, Array_reduce.
  destruct (Array_reduce_from_min pool_total_shares zt
              (lp_amount0 :: lp_amounts) _ Ht (fun _ _ _ => eq_refl)
              pool_amounts vps zs pool_amount0 v0 1%nat)
    as (acc' & Hred & Hacc & Hacc0).
  - assumption.
  - exact Hzs.
  - apply Forall2_length in Hzs. rewrite <- Hzs, <- Hlen. lia.
  - assumption.
  - rewrite Hred. cbn [bind]. rewrite Hacc, BigInt_997, BigInt_1000.
    cbn [bind]. now rewrite div_pos by lia.
Qed.

Lemma calcLpSharesFromAmounts_reduced_witness :
  calcLpSharesFromAmounts "7" ("100" :: ["3"]) ("not an amount" :: ["5"])
  = Ok (toString
          (fold_left Z.min (zip_with (fun p a => 7 * a / p) [3] [5]) 100
           * 997 / 1000)).
Proof.
  apply (calcLpSharesFromAmounts_reduced "7" "100" ["3"] "not an amount"
           ["5"] 7 100 [3] [5]).
  - split; [reflexivity|lia].
  - split; [reflexivity|lia].
  - repeat constructor; lia.
  - repeat constructor; lia.
  - reflexivity.
Defined.

(** X5: on a pool of a single token the callback never runs: the estimate
    is the pool amount less 0.3%, whatever the total shares and the
    supplied amounts are, even unreadable ones. *)
Theorem calcLpSharesFromAmounts_single_token
        (pool_total_shares pool_amount : string) (lp_amounts : list string)
        (z : Z) :
  BigInt pool_amount = Ok z ->
  calcLpSharesFromAmounts pool_total_shares [pool_amount] lp_amounts
  = Ok (toString (Z.quot (z * 997) 1000)).
Proof.
  intros Hz. unfold calcLpSharesFromAmounts. cbn [Array_reduce Array_reduce_from bind].
  rewrite Hz, BigInt_997, BigInt_1000. cbn [bind].
  now rewrite div_nonzero by lia.
Qed.

Lemma calcLpSharesFromAmounts_single_token_witness :
  calcLpSharesFromAmounts "no shares" ["1000"] []
  = Ok (toString (Z.quot (1000 * 997) 1000)).
Proof.
  apply (calcLpSharesFromAmounts_single_token "no shares" "1000" [] 1000).
  reflexivity.
Defined.

Lemma Array_reduce_from_short (t : string) (zt : Z) (lp_amounts : list string)
      (f : string -> string -> nat -> result string) :
  is_amount t zt ->
  (forall prevValue poolAmt index,
      f prevValue poolAmt index
      = (let* t := BigInt t in
         let* a := BigInt_of (lp_amounts !! index) in
         let* p := BigInt poolAmt in
         let* currValue := JS.div (t * a) p in
         let* prev := BigInt prevValue in
         Ok (if prev <? currValue then prevValue else toString currValue))) ->
  forall (ps : list string) (vps zs : list Z) (acc : string) (v : Z)
         (index : nat),
    Forall2 is_positive_amount ps vps ->
    Forall2 is_amount (drop index lp_amounts) zs ->
    (length zs < length ps)%nat ->
    is_amount acc v ->
    Array_reduce_from f acc ps index = Throw NotABigInt.
Proof.
  intros [Ht Ht0] Hf ps.
  induction ps as [|poolAmt ps IH]; intros vps zs acc v index Hps Hzs Hlen Hacc.
  - cbn in Hlen. lia.
  - inversion Hps as [|? p ? vps' [Hp Hp0] Hps']; subst.
    cbn [Array_reduce_from].
    destruct (drop index lp_amounts) as [|sa rest] eqn:Hdrop.
    + assert (Hlook : lp_amounts !! index = None).
      { rewrite <- (Nat.add_0_r index), <- lookup_drop, Hdrop. reflexivity. }
      now rewrite Hf, Ht, Hlook.
    + inversion Hzs as [|? a ? zs' [Ha Ha0] Hzs']; subst.
      assert (Hlook : lp_amounts !! index = Some sa).
      { rewrite <- (Nat.add_0_r index), <- lookup_drop, Hdrop. reflexivity. }
      assert (Hrest : drop (S index) lp_amounts = rest).
      { pose proof (drop_S _ _ _ Hlook) as Hd. rewrite Hdrop in Hd.
        now injection Hd. }
      destruct Hacc as [Hacc Hv0].
      assert (Hc0 : 0 <= zt * a / p)
        by (apply Z.div_pos; [apply Z.mul_nonneg_nonneg|]; lia).
      rewrite Hf, Ht, Hlook. cbn [bind BigInt_of]. rewrite Ha, Hp. cbn [bind].
      rewrite div_pos by (try apply Z.mul_nonneg_nonneg; lia).
      cbn [bind]. rewrite Hacc. cbn [bind].
      apply (IH vps' zs' _ (Z.min v (zt * a / p)));
        [assumption|now rewrite Hrest|cbn in Hlen; lia|].
      destruct (Z.ltb_spec v (zt * a / p)) as [Hlt|Hge].
      * rewrite Z.min_l by lia. now split.
      * rewrite Z.min_r by lia. split; [apply BigInt_toString|assumption].
Qed.

(** X6: when fewer amounts are supplied than the pool has tokens, and the
    pool has at least two, [calcLpSharesFromAmounts] throws a [TypeError]:
    it converts the missing amount to a BigInt. *)
Theorem calcLpSharesFromAmounts_short_supply (pool_total_shares : string)
        (pool_amounts lp_amounts : list string) (zt : Z) (vps zs : list Z) :
  is_amount pool_total_shares zt ->
  Forall2 is_positive_amount pool_amounts vps ->
  Forall2 is_amount lp_amounts zs ->
  (length lp_amounts < length pool_amounts)%nat ->
  (2 <= length pool_amounts)%nat ->
  calcLpSharesFromAmounts pool_total_shares pool_amounts lp_amounts
  = Throw NotABigInt.
Proof.
  intros Ht Hps Hzs Hlen H2.
  destruct Hps as [|s0 p0 ps vps' [Hp0 Hp0pos] Hps]; [cbn in H2; lia|].
  unfold calcLpSharesFromAmounts, Array_reduce.
  rewrite (Array_reduce_from_short pool_total_shares zt lp_amounts _ Ht
             (fun _ _ _ => eq_refl) ps vps' (drop 1 zs) s0 p0 1%nat);
    [reflexivity|assumption| | |split; [assumption|lia]].
  - clear -Hzs. destruct Hzs; [constructor|assumption].
  - apply Forall2_length in Hzs. rewrite length_drop, <- Hzs.
    cbn [length] in Hlen, H2. lia.
Qed.

Lemma calcLpSharesFromAmounts_short_supply_witness :
  calcLpSharesFromAmounts "1000000" ["100"; "200"; "300"] ["10"; "20"]
  = Throw NotABigInt.
Proof.
  apply (calcLpSharesFromAmounts_short_supply "1000000"
           ["100"; "200"; "300"] ["10"; "20"] 1000000 [100; 200; 300] [10; 20]).
  - split; [reflexivity|lia].
  - repeat constructor; lia.
  - repeat constructor; lia.
  - cbn. lia.
  - cbn. lia.
Defined.

(** X7: a pool amount of zero is a division by zero from token 1 on, and
    only there: the pool amount of token 0 is never a divisor, and when it
    is zero the estimate is "0". *)
Theorem calcLpSharesFromAmounts_zero_reserve (pool_total_shares p0 p1 : string)
        (rest lp_amounts : list string) (s : string) (zt a : Z) :
  is_amount pool_total_shares zt ->
  lp_amounts !! 1%nat = Some s -> is_amount s a ->
  (BigInt p1 = Ok 0 ->
   calcLpSharesFromAmounts pool_total_shares (p0 :: p1 :: rest) lp_amounts
   = Throw DivisionByZero)
  /\ (forall v1, BigInt p0 = Ok 0 -> BigInt p1 = Ok v1 -> 0 < v1 ->
      calcLpSharesFromAmounts pool_total_shares [p0; p1] lp_amounts = Ok "0").
Proof.
  intros [Ht Ht0] Hs [Ha Ha0]. split.
  - intros Hp1. unfold calcLpSharesFromAmounts.
    cbn [Array_reduce Array_reduce_from bind].
    rewrite Ht, Hs. cbn [bind BigInt_of]. now rewrite Ha, Hp1.
  - intros v1 Hp0 Hp1 Hv1. unfold calcLpSharesFromAmounts.
    cbn [Array_reduce Array_reduce_from bind].
    rewrite Ht, Hs. cbn [bind BigInt_of]. rewrite Ha, Hp1. cbn [bind].
    rewrite div_pos by (try apply Z.mul_nonneg_nonneg; lia).
    cbn [bind]. rewrite Hp0. cbn [bind].
    assert (Hc0 : 0 <= zt * a / v1)
      by (apply Z.div_pos; [apply Z.mul_nonneg_nonneg|]; lia).
    destruct (Z.ltb_spec 0 (zt * a / v1)) as [Hlt|Hge].
    + now rewrite Hp0.
    + rewrite (Z.le_antisymm _ _ Hge Hc0).
      now rewrite BigInt_toString.
Qed.

Lemma calcLpSharesFromAmounts_zero_reserve_witness :
  calcLpSharesFromAmounts "1000000" ["100"; "0"] ["10"; "20"]
  = Throw DivisionByZero
  /\ calcLpSharesFromAmounts "1000000" ["0"; "200"] ["10"; "20"] = Ok "0".
Proof.
  assert (Ht : is_amount "1000000" 1000000) by (split; [reflexivity|lia]).
  assert (Ha : is_amount "20" 20) by (split; [reflexivity|lia]).
  split.
  - apply (proj1 (calcLpSharesFromAmounts_zero_reserve "1000000" "100" "0" []
                    ["10"; "20"] "20" 1000000 20 Ht eq_refl Ha)).
    reflexivity.
  - apply (proj2 (calcLpSharesFromAmounts_zero_reserve "1000000" "0" "200" []
                    ["10"; "20"] "20" 1000000 20 Ht eq_refl Ha) 200);
      [reflexivity|reflexivity|lia].
Defined.

(** ** [calcMinLPAmountsOut], further *)

Lemma haircut_bounds (x : Z) : 0 <= x -> 0 <= x * 999 / 1000 <= x.
Proof.
  intros Hx. split.
  - apply Z.div_pos; lia.
  - apply Z.div_le_upper_bound; lia.
Qed.

Lemma share_bounds (z u t : Z) :
  0 <= z -> 0 <= u -> 0 < t ->
  0 <= z * u / t /\ (u <= t -> z * u / t <= z).
Proof.
  intros Hz Hu Ht. split.
  - apply Z.div_pos; [apply Z.mul_nonneg_nonneg|]; lia.
  - intros Hle. apply Z.div_le_upper_bound; [lia|]. nia.
Qed.

(** X8: the minimum amounts out are never above the exact share of each
    pool amount, and never above the pool amount itself when the user's
    shares do not exceed the total. *)
Theorem calcMinLPAmountsOut_bounded (user_shares total_shares : string)
        (amounts : list string) (u t : Z) (zs : list Z) :
  is_amount user_shares u ->
  BigInt total_shares = Ok t -> 0 < t ->
  Forall2 is_amount amounts zs ->
  exists vs : list Z,
    calcMinLPAmountsOut user_shares total_shares amounts
    = Ok (List.map toString vs)
    /\ Forall2 (fun v z => 0 <= v /\ v <= z * u / t /\ (u <= t -> v <= z))
               vs zs.
Proof.
  intros [Hu Hu0] Ht Ht0 Hall.
  exists (List.map (fun a => a * u / t * 999 / 1000) zs). split.
  - rewrite List.map_map. unfold calcMinLPAmountsOut.
    apply Array_map_Forall2 with (R := is_amount); [|assumption].
    intros s a [Ha Ha0]. rewrite Ha, Hu, Ht. cbn [bind].
    destruct (share_bounds a u t Ha0 Hu0 Ht0) as [Hs0 _].
    rewrite div_pos by (try apply Z.mul_nonneg_nonneg; lia). cbn [bind].
    rewrite BigInt_999, BigInt_1000. cbn [bind].
    now rewrite div_pos by lia.
  - clear Hu Ht. induction Hall as [|s z amounts zs [_ Hz0] _ IH]; cbn.
    + constructor.
    + constructor; [|exact IH].
      destruct (share_bounds z u t Hz0 Hu0 Ht0) as [Hs0 Hsle].
      destruct (haircut_bounds _ Hs0) as [Hh0 Hhle].
      repeat split; [assumption|assumption|].
      intros Hle. specialize (Hsle Hle). lia.
Qed.

Lemma calcMinLPAmountsOut_bounded_witness :
  exists vs : list Z,
    calcMinLPAmountsOut "100" "1000" ["500"; "900"]
    = Ok (List.map toString vs)
    /\ Forall2 (fun v z => 0 <= v /\ v <= z * 100 / 1000
                           /\ (100 <= 1000 -> v <= z))
               vs [500; 900].
Proof.
  apply (calcMinLPAmountsOut_bounded "100" "1000" ["500"; "900"] 100 1000
           [500; 900]).
  - split; [reflexivity|lia].
  - reflexivity.
  - lia.
  - repeat constructor; lia.
Defined.

(** X9: with total shares of zero [calcMinLPAmountsOut] throws a
    [RangeError] as soon as there is an amount to convert; with no amount
    it returns the empty list and reads neither share count. *)
Theorem calcMinLPAmountsOut_zero_total (user_shares total_shares : string)
        (amount : string) (rest : list string) (u a : Z) :
  BigInt user_shares = Ok u -> BigInt amount = Ok a ->
  BigInt total_shares = Ok 0 ->
  calcMinLPAmountsOut user_shares total_shares (amount :: rest)
  = Throw DivisionByZero
  /\ forall shares total : string, calcMinLPAmountsOut shares total [] = Ok [].
Proof.
  intros Hu Ha Ht. split; [|reflexivity].
  unfold calcMinLPAmountsOut. cbn [Array_map].
  now rewrite Ha, Hu, Ht.
Qed.

Lemma calcMinLPAmountsOut_zero_total_witness :
  calcMinLPAmountsOut "100" "0" ["500"; "900"] = Throw DivisionByZero
  /\ forall shares total : string, calcMinLPAmountsOut shares total [] = Ok [].
Proof.
  apply (calcMinLPAmountsOut_zero_total "100" "0" "500" ["900"] 100 500);
    reflexivity.
Defined.

(** ** [addLiquidity], further *)

Lemma addLiquidity_refActions_value (positions : list Position)
      (vals : list (list Z)) :
  Forall2 (fun position zs => Forall2 is_amount (position_amounts position) zs)
          positions vals ->
  addLiquidity_refActions positions
  = Ok (zip_with add_liquidity_action positions vals).
Proof.
  intros Hall. unfold addLiquidity_refActions.
  induction Hall as [|position zs positions vals Hpos _ IH];
    cbn [Array_map bind zip_with]; [reflexivity|].
  rewrite (Array_map_Forall2 _ (fun a => toString (a * 999 / 1000))
                             is_amount _ zs); [|clear|assumption].
  - cbn [bind]. rewrite IH. cbn [bind]. unfold add_liquidity_action.
    now rewrite List.map_map.
  - intros s a [Ha Ha0]. rewrite Ha, BigInt_999, BigInt_1000. cbn [bind].
    now rewrite div_pos by lia.
Qed.

(** X10: once the key is resolved, [addLiquidity] returns exactly one
    transaction, to the exchange, holding one [add_liquidity] action per
    position in order; for no position at all it is a transaction with an
    empty action list. *)
Theorem addLiquidity_single_transaction (w : World) (positions : list Position)
        (vals : list (list Z)) (key : AccessKeyInfo) (hash : string) :
  key_resolved w key hash ->
  Forall2 (fun position zs => Forall2 is_amount (position_amounts position) zs)
          positions vals ->
  exists tx : Transaction,
    addLiquidity w positions = Ok [tx]
    /\ receiverId tx = ADDRESS_REF_EXCHANGE w
    /\ actions tx = zip_with add_liquidity_action positions vals
    /\ length (actions tx) = length positions
    /\ addLiquidity w [] = Ok [built w key hash (ADDRESS_REF_EXCHANGE w) []].
Proof.
  intros Hkey Hall.
  exists (built w key hash (ADDRESS_REF_EXCHANGE w)
                (zip_with add_liquidity_action positions vals)).
  split; [|split; [reflexivity|split; [reflexivity|split]]].
  - unfold addLiquidity.
    rewrite (addLiquidity_refActions_value positions vals Hall). cbn [bind].
    now rewrite (makeTransaction_built w key hash).
  - cbn [actions built]. rewrite length_zip_with.
    apply Forall2_length in Hall. lia.
  - unfold addLiquidity. cbn [addLiquidity_refActions Array_map bind].
    now rewrite (makeTransaction_built w key hash).
Qed.

Lemma addLiquidity_single_transaction_witness :
  exists tx : Transaction,
    addLiquidity sample_world
      [ {| pool_id := 535; position_amounts := ["1000"; "7"] |} ] = Ok [tx]
    /\ receiverId tx = ADDRESS_REF_EXCHANGE sample_world
    /\ actions tx
       = zip_with add_liquidity_action
           [ {| pool_id := 535; position_amounts := ["1000"; "7"] |} ]
           [ [1000; 7] ]
    /\ length (actions tx)
       = length [ {| pool_id := 535; position_amounts := ["1000"; "7"] |} ]
    /\ addLiquidity sample_world []
       = Ok [built sample_world sample_key
               "9MzuZrRPW1BGpFnZJUJg6SzCrixPpJDfjsNeUobRXsLe"
               (ADDRESS_REF_EXCHANGE sample_world) []].
Proof.
  apply (addLiquidity_single_transaction sample_world
           [ {| pool_id := 535; position_amounts := ["1000"; "7"] |} ]
           [ [1000; 7] ] sample_key
           "9MzuZrRPW1BGpFnZJUJg6SzCrixPpJDfjsNeUobRXsLe").
  - split; reflexivity.
  - repeat constructor; lia.
Defined.

(** ** [depositTokensOnRef], further *)

Lemma Promise_all_Forall {A} (P : A -> Prop) (ps : list (result A))
      (xs : list A) :
  (forall p x, In p ps -> p = Ok x -> P x) ->
  Promise_all ps = Ok xs -> Forall P xs.
Proof.
  revert xs. induction ps as [|p ps IH]; intros xs HP Hall.
  - injection Hall as <-. constructor.
  - cbn in Hall. destruct p as [x|e]; [|discriminate]. cbn in Hall.
    destruct (Promise_all ps) as [xs'|e] eqn:E; [|discriminate].
    injection Hall as <-. constructor.
    + apply (HP (Ok x)); [now left|reflexivity].
    + apply IH; [|reflexivity]. intros p y Hin. apply HP. now right.
Qed.

Lemma depositTokensOnRef_built (w : World) (deposits : list Deposit)
      (sbo : option StorageBalance) (acts : list Action)
      (key : AccessKeyInfo) (hash : string) :
  storage_balance_of w (ADDRESS_REF_EXCHANGE w) = Ok sbo ->
  depositTokensOnRef_refActions (length deposits) sbo = Ok acts ->
  key_resolved w key hash ->
  depositTokensOnRef w deposits
  = Ok ((if (1 <=? length acts)%nat
         then [built w key hash (ADDRESS_REF_EXCHANGE w) acts] else [])
        ++ List.map (fun d => built w key hash (token d) [deposit_action w d])
                    deposits)%list.
Proof.
  intros Hview Hacts Hkey. unfold depositTokensOnRef.
  rewrite Hview. cbn [bind]. rewrite Hacts. cbn [bind].
  rewrite List.map_map. cbn [fst snd].
  rewrite (List.map_ext _ (fun d => Ok (built w key hash (token d)
                                               [deposit_action w d])))
    by (intros d; now apply makeTransaction_built).
  rewrite (makeTransaction_built w key hash) by assumption.
  rewrite <- (List.map_map _ Ok).
  destruct (1 <=? length acts)%nat.
  - apply (Promise_all_Ok (_ :: _)).
  - apply Promise_all_Ok.
Qed.

(** X11: for an account registered on the exchange, with the key resolved,
    [depositTokensOnRef] returns the storage transaction, if any, first,
    and then one transaction per deposit, in the order of the deposits,
    each sent to the token contract with a single [ft_transfer_call]. *)
Theorem depositTokensOnRef_transactions (w : World) (deposits : list Deposit)
        (sb : StorageBalance) (s : string) (a : Z)
        (key : AccessKeyInfo) (hash : string) :
  storage_balance_of w (ADDRESS_REF_EXCHANGE w) = Ok (Some sb) ->
  available sb = Some s -> is_amount s a ->
  key_resolved w key hash ->
  exists storage : list Transaction,
    depositTokensOnRef w deposits
    = Ok (storage
          ++ List.map (fun d => built w key hash (token d) [deposit_action w d])
                      deposits)%list
    /\ (a <= Z.of_nat (length deposits) * (5 * 10 ^ 21) ->
        exists pay : string,
          storage
          = [built w key hash (ADDRESS_REF_EXCHANGE w)
               [functionCall "storage_deposit" (JObj []) 20000000000000 pay]])
    /\ (Z.of_nat (length deposits) * (5 * 10 ^ 21) < a -> storage = []).
Proof.
  intros Hview Hs Ha Hkey.
  pose proof (depositTokensOnRef_refActions_registered
                (length deposits) sb s a Hs Ha) as Hacts.
  cbn zeta in Hacts.
  eexists. split.
  - apply (depositTokensOnRef_built w deposits (Some sb) _ key hash Hview Hacts Hkey).
  - destruct (Z.leb_spec a (Z.of_nat (length deposits) * (5 * 10 ^ 21)));
      cbn [length Nat.leb]; split; intros; try lia; eauto.
Qed.

Lemma depositTokensOnRef_transactions_witness :
  exists storage : list Transaction,
    depositTokensOnRef (with_storage sample_world "3000000000000000000001")
      [ {| token := "meta-pool.near"; amount := "10" |};
        {| token := "wrap.near"; amount := "20" |} ]
    = Ok (storage
          ++ List.map (fun d =>
               built (with_storage sample_world "3000000000000000000001")
                     sample_key "9MzuZrRPW1BGpFnZJUJg6SzCrixPpJDfjsNeUobRXsLe"
                     (token d)
                     [deposit_action
                        (with_storage sample_world "3000000000000000000001") d])
               [ {| token := "meta-pool.near"; amount := "10" |};
                 {| token := "wrap.near"; amount := "20" |} ])%list
    /\ (3000000000000000000001
        <= Z.of_nat (length [ {| token := "meta-pool.near"; amount := "10" |};
                              {| token := "wrap.near"; amount := "20" |} ])
           * (5 * 10 ^ 21) ->
        exists pay : string,
          storage
          = [built (with_storage sample_world "3000000000000000000001")
               sample_key "9MzuZrRPW1BGpFnZJUJg6SzCrixPpJDfjsNeUobRXsLe"
               (ADDRESS_REF_EXCHANGE
                  (with_storage sample_world "3000000000000000000001"))
               [functionCall "storage_deposit" (JObj []) 20000000000000 pay]])
    /\ (Z.of_nat (length [ {| token := "meta-pool.near"; amount := "10" |};
                           {| token := "wrap.near"; amount := "20" |} ])
        * (5 * 10 ^ 21) < 3000000000000000000001 -> storage = []).
Proof.
  apply (depositTokensOnRef_transactions
           (with_storage sample_world "3000000000000000000001")
           [ {| token := "meta-pool.near"; amount := "10" |};
             {| token := "wrap.near"; amount := "20" |} ]
           {| total := Some "3000000000000000000001";
              available := Some "3000000000000000000001" |}
           "3000000000000000000001" 3000000000000000000001
           sample_key "9MzuZrRPW1BGpFnZJUJg6SzCrixPpJDfjsNeUobRXsLe").
  - reflexivity.
  - reflexivity.
  - split; [vm_compute; reflexivity|lia].
  - split; reflexivity.
Defined.

(** X12: when the available storage is at most the requirement, the
    deposit attached to [storage_deposit] is a multiple of
    [MIN_DEPOSIT_PER_TOKEN] that covers the shortfall with less than one
    [MIN_DEPOSIT_PER_TOKEN] to spare, so that the storage suffices
    afterwards. *)
Theorem depositTokensOnRef_attached_deposit (n : nat) (sb : StorageBalance)
        (s : string) (a : Z) :
  available sb = Some s -> is_amount s a ->
  a <= Z.of_nat n * (5 * 10 ^ 21) ->
  exists pay : Z,
    depositTokensOnRef_refActions n (Some sb)
    = Ok [functionCall "storage_deposit" (JObj []) 20000000000000
            (toString pay)]
    /\ pay mod (5 * 10 ^ 21) = 0
    /\ Z.of_nat n * (5 * 10 ^ 21) - a <= pay
       < Z.of_nat n * (5 * 10 ^ 21) - a + 5 * 10 ^ 21
    /\ Z.of_nat n * (5 * 10 ^ 21) <= a + pay.
Proof.
  intros Hs Ha Hle.
  pose proof (depositTokensOnRef_refActions_registered n sb s a Hs Ha) as Hacts.
  cbn zeta in Hacts.
  destruct (Z.leb_spec a (Z.of_nat n * (5 * 10 ^ 21))); [|lia].
  eexists. split; [exact Hacts|].
  destruct (round_up_bounds (Z.of_nat n * (5 * 10 ^ 21) - a) (5 * 10 ^ 21))
    as [Hmul Hb]; [lia|lia|].
  cbn zeta in Hmul, Hb. repeat split; [exact Hmul|lia..].
Qed.

Lemma depositTokensOnRef_attached_deposit_witness :
  exists pay : Z,
    depositTokensOnRef_refActions 2
      (Some {| total := None; available := Some "3000000000000000000001" |})
    = Ok [functionCall "storage_deposit" (JObj []) 20000000000000
            (toString pay)]
    /\ pay mod (5 * 10 ^ 21) = 0
    /\ Z.of_nat 2 * (5 * 10 ^ 21) - 3000000000000000000001 <= pay
       < Z.of_nat 2 * (5 * 10 ^ 21) - 3000000000000000000001 + 5 * 10 ^ 21
    /\ Z.of_nat 2 * (5 * 10 ^ 21) <= 3000000000000000000001 + pay.
Proof.
  apply (depositTokensOnRef_attached_deposit 2
           {| total := None; available := Some "3000000000000000000001" |}
           "3000000000000000000001" 3000000000000000000001).
  - reflexivity.
  - split; [vm_compute; reflexivity|lia].
  - vm_compute. discriminate.
Defined.

(** X13: the storage check depends on the size of the batch: with more
    than one [MIN_DEPOSIT_PER_TOKEN] available but no more than [n] of
    them, a call for a single deposit asks for no storage, while the call
    for the [n] deposits together does. *)
Theorem depositTokensOnRef_batching (n : nat) (sb : StorageBalance)
        (s : string) (a : Z) :
  available sb = Some s -> is_amount s a ->
  5 * 10 ^ 21 < a -> a <= Z.of_nat n * (5 * 10 ^ 21) ->
  depositTokensOnRef_refActions 1 (Some sb) = Ok []
  /\ exists pay : string,
      depositTokensOnRef_refActions n (Some sb)
      = Ok [functionCall "storage_deposit" (JObj []) 20000000000000 pay].
Proof.
  intros Hs Ha Hlt Hle. split.
  - rewrite (depositTokensOnRef_refActions_registered 1 sb s a Hs Ha).
    cbn zeta. destruct (Z.leb_spec a (Z.of_nat 1 * (5 * 10 ^ 21)));
      [lia|reflexivity].
  - rewrite (depositTokensOnRef_refActions_registered n sb s a Hs Ha).
    cbn zeta. destruct (Z.leb_spec a (Z.of_nat n * (5 * 10 ^ 21)));
      [eauto|lia].
Qed.

Lemma depositTokensOnRef_batching_witness :
  depositTokensOnRef_refActions 1
    (Some {| total := None; available := Some "6000000000000000000000" |})
  = Ok []
  /\ exists pay : string,
      depositTokensOnRef_refActions 2
        (Some {| total := None; available := Some "6000000000000000000000" |})
      = Ok [functionCall "storage_deposit" (JObj []) 20000000000000 pay].
Proof.
  apply (depositTokensOnRef_batching 2
           {| total := None; available := Some "6000000000000000000000" |}
           "6000000000000000000000" 6000000000000000000000).
  - reflexivity.
  - split; [vm_compute; reflexivity|lia].
  - vm_compute. reflexivity.
  - vm_compute. discriminate.
Defined.

Lemma makeTransaction_nonce (w : World) (key : AccessKeyInfo) (hash : string)
      (receiver : string) (acts : list Action) (tx : Transaction) :
  key_resolved w key hash ->
  makeTransaction w receiver acts None = Ok tx ->
  nonce tx = access_key_nonce key + 1.
Proof.
  intros Hkey Htx. rewrite (makeTransaction_built w key hash) in Htx
    by assumption.
  now injection Htx as <-.
Qed.

(** X14: when the account signs with one access key, all the transactions
    [depositTokensOnRef] returns, and all those [farmStake] returns, carry
    the same nonce, the key's nonce plus one. *)
Theorem transactions_share_nonce (w : World) (deposits : list Deposit)
        (amount : string) (poolID : Z) (key : AccessKeyInfo) (hash : string)
        (dtxs ftxs : list Transaction) :
  key_resolved w key hash ->
  depositTokensOnRef w deposits = Ok dtxs ->
  farmStake w amount poolID = Ok ftxs ->
  Forall (fun tx => nonce tx = access_key_nonce key + 1) (dtxs ++ ftxs).
Proof.
  intros Hkey Hd Hf. apply Forall_app. split.
  - unfold depositTokensOnRef in Hd.
    destruct (storage_balance_of w (ADDRESS_REF_EXCHANGE w)) as [sbo|];
      [|discriminate].
    cbn [bind] in Hd.
    destruct (depositTokensOnRef_refActions (length deposits) sbo) as [acts|];
      [|discriminate].
    cbn [bind] in Hd. revert Hd. apply Promise_all_Forall.
    intros p tx Hin ->. apply in_app_or in Hin. destruct Hin as [Hin|Hin].
    + destruct (1 <=? length acts)%nat; [|contradiction].
      destruct Hin as [Hin|[]].
      eapply makeTransaction_nonce; eassumption.
    + apply List.in_map_iff in Hin. destruct Hin as (ta & Hta & _).
      eapply makeTransaction_nonce; eassumption.
  - unfold farmStake in Hf.
    destruct (storage_balance_of w (ADDRESS_REF_FARMING w)) as [sbo|];
      [|discriminate].
    cbn [bind] in Hf.
    destruct (farmStake_needs_storage sbo) as [needed|]; [|discriminate].
    cbn [bind] in Hf. revert Hf. apply Promise_all_Forall.
    intros p tx Hin ->. apply in_app_or in Hin. destruct Hin as [Hin|Hin].
    + destruct needed; cbn in Hin; [|contradiction].
      destruct Hin as [Hin|[]].
      eapply makeTransaction_nonce; eassumption.
    + destruct Hin as [Hin|[]].
      eapply makeTransaction_nonce; eassumption.
Qed.

Lemma transactions_share_nonce_witness :
  match
    depositTokensOnRef (with_storage sample_world "0")
      [ {| token := "meta-pool.near"; amount := "10" |};
        {| token := "wrap.near"; amount := "20" |} ],
    farmStake (with_storage sample_world "0") "99" 535
  with
  | Ok dtxs, Ok ftxs =>
      Forall (fun tx => nonce tx = access_key_nonce sample_key + 1)
             (dtxs ++ ftxs)
  | _, _ => False
  end.
Proof.
  destruct (depositTokensOnRef (with_storage sample_world "0")
              [ {| token := "meta-pool.near"; amount := "10" |};
                {| token := "wrap.near"; amount := "20" |} ])
    as [dtxs|e] eqn:Hd; [|vm_compute in Hd; discriminate].
  destruct (farmStake (with_storage sample_world "0") "99" 535)
    as [ftxs|e] eqn:Hf; [|vm_compute in Hf; discriminate].
  apply (transactions_share_nonce (with_storage sample_world "0")
           [ {| token := "meta-pool.near"; amount := "10" |};
             {| token := "wrap.near"; amount := "20" |} ]
           "99" 535 sample_key
           "9MzuZrRPW1BGpFnZJUJg6SzCrixPpJDfjsNeUobRXsLe" dtxs ftxs);
    [split; reflexivity|exact Hd|exact Hf].
Defined.

(** X15: when the account is registered on the exchange with more storage
    available than nothing, [depositTokensOnRef] of no deposit returns no
    transaction at all. *)
Theorem depositTokensOnRef_no_deposit (w : World) (sb : StorageBalance)
        (s : string) (a : Z) :
  storage_balance_of w (ADDRESS_REF_EXCHANGE w) = Ok (Some sb) ->
  available sb = Some s -> is_amount s a -> 0 < a ->
  depositTokensOnRef w [] = Ok [].
Proof.
  intros Hview Hs Ha Hpos.
  destruct (depositTokensOnRef_enough_storage w [] sb s a Hview Hs Ha)
    as [_ ->]; [cbn; lia|reflexivity].
Qed.

Lemma depositTokensOnRef_no_deposit_witness :
  depositTokensOnRef (with_storage sample_world "1") [] = Ok [].
Proof.
  apply (depositTokensOnRef_no_deposit (with_storage sample_world "1")
           {| total := Some "1"; available := Some "1" |} "1" 1);
    [reflexivity|reflexivity|split; [reflexivity|lia]|lia].
Defined.

(** ** Storage balances with a missing field *)

(** X16: a storage balance without its [available] field makes
    [depositTokensOnRef] and [farmUnstake] throw a [TypeError], where
    [farmStake] reads the missing field as "0" and asks for storage. *)
Theorem missing_available_field (w : World) (deposits : list Deposit)
        (amount : string) (poolID : Z) (sb : StorageBalance) :
  available sb = None ->
  storage_balance_of w (ADDRESS_REF_EXCHANGE w) = Ok (Some sb) ->
  storage_balance_of w (ADDRESS_REF_FARMING w) = Ok (Some sb) ->
  depositTokensOnRef w deposits = Throw NotABigInt
  /\ farmUnstake w amount poolID = Throw NotABigInt
  /\ farmStake_needs_storage (Some sb) = Ok true.
Proof.
  intros Hav Hex Hfarm. repeat split.
  - unfold depositTokensOnRef, depositTokensOnRef_refActions.
    rewrite Hex. cbn [bind]. rewrite BigInt_MIN_DEPOSIT_PER_TOKEN.
    cbn [bind]. now rewrite Hav.
  - unfold farmUnstake, farmUnstake_needs_storage.
    rewrite Hfarm. cbn [bind]. now rewrite Hav.
  - unfold farmStake_needs_storage. rewrite Hav. cbn [from_option id].
    rewrite BigInt_FARM_STORAGE_BALANCE. reflexivity.
Qed.

Lemma missing_available_field_witness :
  depositTokensOnRef
    (with_storage_answer sample_world
       (Some {| total := Some "1"; available := None |}))
    [ {| token := "wrap.near"; amount := "20" |} ]
  = Throw NotABigInt
  /\ farmUnstake
       (with_storage_answer sample_world
          (Some {| total := Some "1"; available := None |})) "99" 535
     = Throw NotABigInt
  /\ farmStake_needs_storage (Some {| total := Some "1"; available := None |})
     = Ok true.
Proof.
  apply (missing_available_field
           (with_storage_answer sample_world
              (Some {| total := Some "1"; available := None |}))
           [ {| token := "wrap.near"; amount := "20" |} ] "99" 535
           {| total := Some "1"; available := None |}); reflexivity.
Defined.

(** ** [farmStake] and [farmUnstake] *)

Lemma BigInt_0 : BigInt "0" = Ok 0.
Proof. reflexivity. Qed.

(** X17: [farmStake] asks for storage on the farm exactly when the account
    is not registered there or has less than [FARM_STORAGE_BALANCE]
    available (the comparison with [MIN_DEPOSIT_PER_TOKEN] never decides);
    it then deposits [FARM_STORAGE_BALANCE] in full, in a transaction to
    the farm that comes before the staking transaction, which goes to the
    exchange and is always there. *)
Theorem farmStake_transactions (w : World) (amount : string) (poolID : Z)
        (sbo : option StorageBalance) (needed : bool)
        (key : AccessKeyInfo) (hash : string) :
  storage_balance_of w (ADDRESS_REF_FARMING w) = Ok sbo ->
  farmStake_needs_storage sbo = Ok needed ->
  key_resolved w key hash ->
  farmStake w amount poolID
  = Ok ((if needed
         then [built w key hash (ADDRESS_REF_FARMING w)
                 [functionCall "storage_deposit" (JObj []) 20000000000000
                               FARM_STORAGE_BALANCE]]
         else [])
        ++ [built w key hash (ADDRESS_REF_EXCHANGE w)
              [functionCall "mft_transfer_call"
                 (JObj [("receiver_id", JStr (ADDRESS_REF_FARMING w));
                        ("token_id", JStr (":" +:+ toString poolID));
                        ("amount", JStr amount);
                        ("msg", JStr "")])
                 180000000000000 "1"]])%list
  /\ (sbo = None -> needed = true)
  /\ (forall sb s a,
         sbo = Some sb -> available sb = Some s -> BigInt s = Ok a ->
         needed = (a <? 45 * 10 ^ 21)).
Proof.
  intros Hview Hneeds Hkey. split; [|split].
  - unfold farmStake. rewrite Hview. cbn [bind]. rewrite Hneeds. cbn [bind].
    rewrite !(makeTransaction_built w key hash) by assumption.
    destruct needed; reflexivity.
  - intros ->. cbn in Hneeds. congruence.
  - intros sb s a -> Hs Ha. unfold farmStake_needs_storage in Hneeds.
    rewrite Hs in Hneeds. cbn [from_option id] in Hneeds.
    rewrite Ha, BigInt_FARM_STORAGE_BALANCE, BigInt_MIN_DEPOSIT_PER_TOKEN
      in Hneeds.
    cbn [bind] in Hneeds.
    destruct (Z.ltb_spec a (45 * 10 ^ 21)) as [Hlt|Hge]; [congruence|].
    cbn [bind] in Hneeds.
    destruct (Z.ltb_spec a (5 * 10 ^ 21)); [lia|congruence].
Qed.

Lemma farmStake_transactions_witness :
  farmStake (with_storage sample_world "44999999999999999999999") "99" 535
  = Ok ((if true
         then [built (with_storage sample_world "44999999999999999999999")
                 sample_key "9MzuZrRPW1BGpFnZJUJg6SzCrixPpJDfjsNeUobRXsLe"
                 "v2.ref-farming.near"
                 [functionCall "storage_deposit" (JObj []) 20000000000000
                               FARM_STORAGE_BALANCE]]
         else [])
        ++ [built (with_storage sample_world "44999999999999999999999")
              sample_key "9MzuZrRPW1BGpFnZJUJg6SzCrixPpJDfjsNeUobRXsLe"
              "v2.ref-finance.near"
              [functionCall "mft_transfer_call"
                 (JObj [("receiver_id", JStr "v2.ref-farming.near");
                        ("token_id", JStr (":" +:+ toString 535));
                        ("amount", JStr "99");
                        ("msg", JStr "")])
                 180000000000000 "1"]])%list
  /\ (Some {| total := Some "44999999999999999999999";
              available := Some "44999999999999999999999" |} = None ->
      true = true)
  /\ (forall sb s a,
         Some {| total := Some "44999999999999999999999";
                 available := Some "44999999999999999999999" |} = Some sb ->
         available sb = Some s -> BigInt s = Ok a ->
         true = (a <? 45 * 10 ^ 21)).
Proof.
  apply (farmStake_transactions
           (with_storage sample_world "44999999999999999999999") "99" 535
           (Some {| total := Some "44999999999999999999999";
                    available := Some "44999999999999999999999" |})
           true sample_key "9MzuZrRPW1BGpFnZJUJg6SzCrixPpJDfjsNeUobRXsLe").
  - reflexivity.
  - vm_compute. reflexivity.
  - split; reflexivity.
Defined.

(** X18: [farmUnstake] returns a single transaction, to the farm, whose
    last action is the [withdraw_seed] of the pool's seed; a
    [storage_deposit] of [FARM_STORAGE_BALANCE] precedes it in the same
    transaction exactly when the account is not registered on the farm or
    has nothing available there. *)
Theorem farmUnstake_transaction (w : World) (amount : string) (poolID : Z)
        (sbo : option StorageBalance) (needed : bool)
        (key : AccessKeyInfo) (hash : string) :
  storage_balance_of w (ADDRESS_REF_FARMING w) = Ok sbo ->
  farmUnstake_needs_storage sbo = Ok needed ->
  key_resolved w key hash ->
  farmUnstake w amount poolID
  = Ok [built w key hash (ADDRESS_REF_FARMING w)
          ((if needed
            then [functionCall "storage_deposit" (JObj []) 20000000000000
                               FARM_STORAGE_BALANCE]
            else [])
           ++ [functionCall "withdraw_seed"
                 (JObj [("seed_id",
                         JStr (ADDRESS_REF_EXCHANGE w +:+ "@"
                                 +:+ toString poolID));
                        ("amount", JStr amount);
                        ("msg", JStr "")])
                 200000000000000 "1"])%list]
  /\ (sbo = None -> needed = true)
  /\ (forall sb s a,
         sbo = Some sb -> available sb = Some s -> BigInt s = Ok a ->
         needed = (a <=? 0)).
Proof.
  intros Hview Hneeds Hkey. split; [|split].
  - unfold farmUnstake. rewrite Hview. cbn [bind]. rewrite Hneeds. cbn [bind].
    now rewrite (makeTransaction_built w key hash) by assumption.
  - intros ->. cbn in Hneeds. congruence.
  - intros sb s a -> Hs Ha. unfold farmUnstake_needs_storage in Hneeds.
    rewrite Hs in Hneeds. cbn [BigInt_of] in Hneeds.
    rewrite Ha, BigInt_0 in Hneeds. cbn [bind] in Hneeds. congruence.
Qed.

Lemma farmUnstake_transaction_witness :
  farmUnstake sample_world "99" 535
  = Ok [built sample_world sample_key
          "9MzuZrRPW1BGpFnZJUJg6SzCrixPpJDfjsNeUobRXsLe" "v2.ref-farming.near"
          ((if true
            then [functionCall "storage_deposit" (JObj []) 20000000000000
                               FARM_STORAGE_BALANCE]
            else [])
           ++ [functionCall "withdraw_seed"
                 (JObj [("seed_id",
                         JStr ("v2.ref-finance.near" +:+ "@" +:+ toString 535));
                        ("amount", JStr "99");
                        ("msg", JStr "")])
                 200000000000000 "1"])%list]
  /\ (@None StorageBalance = None -> true = true)
  /\ (forall sb s a,
         None = Some sb -> available sb = Some s -> BigInt s = Ok a ->
         true = (a <=? 0)).
Proof.
  apply (farmUnstake_transaction sample_world "99" 535 None true sample_key
           "9MzuZrRPW1BGpFnZJUJg6SzCrixPpJDfjsNeUobRXsLe").
  - reflexivity.
  - reflexivity.
  - split; reflexivity.
Defined.

(** ** [instantSwap], [nearToWnear] and [stepOneAction] *)

Lemma token_needs_storage_cases (sbo : option StorageBalance) (needed : bool) :
  token_needs_storage sbo = Ok needed ->
  (sbo = None -> needed = true)
  /\ (forall sb s t,
         sbo = Some sb -> total sb = Some s -> BigInt s = Ok t ->
         needed = (t <=? 0)).
Proof.
  intros Hneeds. split.
  - intros ->. cbn in Hneeds. congruence.
  - intros sb s t -> Hs Ht. unfold token_needs_storage in Hneeds.
    rewrite Hs in Hneeds. cbn [BigInt_of] in Hneeds.
    rewrite Ht, BigInt_0 in Hneeds. cbn [bind] in Hneeds. congruence.
Qed.

(** X19: [instantSwap] sends the swap to the token given in, as one
    [ft_transfer_call] of [amount_in] to the exchange, in the last
    transaction; a transaction to the token received, with a
    [storage_deposit] of [NEW_ACCOUNT_STORAGE_COST], comes before it
    exactly when the account is not registered on that token or its total
    storage there is not positive. *)
Theorem instantSwap_transactions (JSON_stringify : json -> string)
        (w : World) (swap_action : SwapAction)
        (sbo : option StorageBalance) (needed : bool)
        (key : AccessKeyInfo) (hash : string) :
  storage_balance_of w (token_out swap_action) = Ok sbo ->
  token_needs_storage sbo = Ok needed ->
  key_resolved w key hash ->
  instantSwap JSON_stringify w swap_action
  = Ok ((if needed
         then [built w key hash (token_out swap_action)
                 [functionCall "storage_deposit" (JObj []) 30000000000000
                               NEW_ACCOUNT_STORAGE_COST]]
         else [])
        ++ [built w key hash (token_in swap_action)
              [functionCall "ft_transfer_call"
                 (JObj [("receiver_id", JStr (ADDRESS_REF_EXCHANGE w));
                        ("amount", JStr (amount_in swap_action));
                        ("msg",
                         JStr (JSON_stringify
                                 (JObj [("force", JNum 0);
                                        ("actions",
                                         JArr [SwapAction_json swap_action])])))])
                 180000000000000 "1"]])%list
  /\ (sbo = None -> needed = true)
  /\ (forall sb s t,
         sbo = Some sb -> total sb = Some s -> BigInt s = Ok t ->
         needed = (t <=? 0)).
Proof.
  intros Hview Hneeds Hkey. split; [|now apply token_needs_storage_cases].
  unfold instantSwap. rewrite Hview. cbn [bind]. rewrite Hneeds. cbn [bind].
  rewrite !(makeTransaction_built w key hash) by assumption.
  destruct needed; reflexivity.
Qed.

Lemma instantSwap_transactions_witness :
  let swap :=
    {| swap_pool_id := 535; token_in := "wrap.near";
       token_out := "meta-pool.near"; amount_in := "1000";
       min_amount_out := "900" |} in
  let w := with_storage sample_world "1" in
  let hash := "9MzuZrRPW1BGpFnZJUJg6SzCrixPpJDfjsNeUobRXsLe" in
  instantSwap sample_stringify w swap
  = Ok ((if false
         then [built w sample_key hash (token_out swap)
                 [functionCall "storage_deposit" (JObj []) 30000000000000
                               NEW_ACCOUNT_STORAGE_COST]]
         else [])
        ++ [built w sample_key hash (token_in swap)
              [functionCall "ft_transfer_call"
                 (JObj [("receiver_id", JStr (ADDRESS_REF_EXCHANGE w));
                        ("amount", JStr (amount_in swap));
                        ("msg",
                         JStr (sample_stringify
                                 (JObj [("force", JNum 0);
                                        ("actions",
                                         JArr [SwapAction_json swap])])))])
                 180000000000000 "1"]])%list
  /\ (Some {| total := Some "1"; available := Some "1" |} = None ->
      false = true)
  /\ (forall sb s t,
         Some {| total := Some "1"; available := Some "1" |} = Some sb ->
         total sb = Some s -> BigInt s = Ok t ->
         false = (t <=? 0)).
Proof.
  apply (instantSwap_transactions sample_stringify
           (with_storage sample_world "1")
           {| swap_pool_id := 535; token_in := "wrap.near";
              token_out := "meta-pool.near"; amount_in := "1000";
              min_amount_out := "900" |}
           (Some {| total := Some "1"; available := Some "1" |}) false
           sample_key "9MzuZrRPW1BGpFnZJUJg6SzCrixPpJDfjsNeUobRXsLe").
  - reflexivity.
  - reflexivity.
  - split; reflexivity.
Defined.

Lemma nearToWnear_built (w : World) (near_amount : string)
      (sbo : option StorageBalance) (needed : bool)
      (key : AccessKeyInfo) (hash : string) :
  storage_balance_of w (ADDRESS_WNEAR w) = Ok sbo ->
  token_needs_storage sbo = Ok needed ->
  key_resolved w key hash ->
  nearToWnear w near_amount
  = Ok [built w key hash (ADDRESS_WNEAR w)
          ((if needed
            then [functionCall "storage_deposit" (JObj []) 30000000000000
                               NEW_ACCOUNT_STORAGE_COST]
            else [])
           ++ [functionCall "near_deposit" (JObj []) 50000000000000
                            near_amount])%list].
Proof.
  intros Hview Hneeds Hkey.
  unfold nearToWnear. rewrite Hview. cbn [bind]. rewrite Hneeds. cbn [bind].
  now rewrite (makeTransaction_built w key hash) by assumption.
Qed.

Lemma nearToStnear_built (w : World) (near_amount : string)
      (key : AccessKeyInfo) (hash : string) :
  key_resolved w key hash ->
  nearToStnear w near_amount
  = Ok [built w key hash (ADDRESS_METAPOOL w)
          [functionCall "deposit_and_stake" (JObj []) 50000000000000
                        near_amount]].
Proof.
  intros Hkey. unfold nearToStnear.
  now rewrite (makeTransaction_built w key hash) by assumption.
Qed.

(** X20: [nearToWnear] wraps in a single transaction to the wNEAR
    contract: the [near_deposit] attaching the amount comes last, after a
    [storage_deposit] of [NEW_ACCOUNT_STORAGE_COST] in the same
    transaction exactly when the account is not registered on wNEAR or its
    total storage there is not positive. *)
Theorem nearToWnear_transaction (w : World) (near_amount : string)
        (sbo : option StorageBalance) (needed : bool)
        (key : AccessKeyInfo) (hash : string) :
  storage_balance_of w (ADDRESS_WNEAR w) = Ok sbo ->
  token_needs_storage sbo = Ok needed ->
  key_resolved w key hash ->
  nearToWnear w near_amount
  = Ok [built w key hash (ADDRESS_WNEAR w)
          ((if needed
            then [functionCall "storage_deposit" (JObj []) 30000000000000
                               NEW_ACCOUNT_STORAGE_COST]
            else [])
           ++ [functionCall "near_deposit" (JObj []) 50000000000000
                            near_amount])%list]
  /\ (sbo = None -> needed = true)
  /\ (forall sb s t,
         sbo = Some sb -> total sb = Some s -> BigInt s = Ok t ->
         needed = (t <=? 0)).
Proof.
  intros Hview Hneeds Hkey.
  split; [eapply nearToWnear_built; eassumption
        |now apply token_needs_storage_cases].
Qed.

Lemma nearToWnear_transaction_witness :
  nearToWnear sample_world "500"
  = Ok [built sample_world sample_key
          "9MzuZrRPW1BGpFnZJUJg6SzCrixPpJDfjsNeUobRXsLe" "wrap.near"
          ((if true
            then [functionCall "storage_deposit" (JObj []) 30000000000000
                               NEW_ACCOUNT_STORAGE_COST]
            else [])
           ++ [functionCall "near_deposit" (JObj []) 50000000000000
                            "500"])%list]
  /\ (@None StorageBalance = None -> true = true)
  /\ (forall sb s t,
         None = Some sb -> total sb = Some s -> BigInt s = Ok t ->
         true = (t <=? 0)).
Proof.
  apply (nearToWnear_transaction sample_world "500" None true sample_key
           "9MzuZrRPW1BGpFnZJUJg6SzCrixPpJDfjsNeUobRXsLe").
  - reflexivity.
  - reflexivity.
  - split; reflexivity.
Defined.

(** X21: [stepOneAction] hands the wallet two transactions, the wrap on
    wNEAR and then the stake on the staking pool, each attaching
    floor(allowance / 2): together they never exceed the allowance, and
    leave one unit of it unused when it is odd.  The storage deposit of the
    wrap, when there is one, comes on top of the allowance. *)
Theorem stepOneAction_halves (w : World) (allowance : string) (a : Z)
        (sbo : option StorageBalance) (needed : bool)
        (key : AccessKeyInfo) (hash : string) :
  is_amount allowance a ->
  storage_balance_of w (ADDRESS_WNEAR w) = Ok sbo ->
  token_needs_storage sbo = Ok needed ->
  key_resolved w key hash ->
  exists half : Z,
    stepOneAction w allowance
    = Ok {| transactions :=
              [built w key hash (ADDRESS_WNEAR w)
                 ((if needed
                   then [functionCall "storage_deposit" (JObj [])
                                      30000000000000 NEW_ACCOUNT_STORAGE_COST]
                   else [])
                  ++ [functionCall "near_deposit" (JObj []) 50000000000000
                                   (toString half)])%list;
               built w key hash (ADDRESS_METAPOOL w)
                 [functionCall "deposit_and_stake" (JObj []) 50000000000000
                               (toString half)]];
            callbackUrl := location_href w |}
    /\ half + half <= a
    /\ a - (half + half) = a mod 2.
Proof.
  intros [Ha Ha0] Hview Hneeds Hkey. exists (a / 2).
  split; [|split].
  - unfold stepOneAction. rewrite Ha. cbn [bind].
    change (BigInt "2") with (Ok 2). cbn [bind].
    rewrite div_pos by lia. cbn [bind].
    rewrite (nearToWnear_built w _ sbo needed key hash Hview Hneeds Hkey).
    rewrite (nearToStnear_built w _ key hash Hkey).
    reflexivity.
  - pose proof (Z.div_mod a 2). pose proof (Z.mod_pos_bound a 2). lia.
  - pose proof (Z.div_mod a 2). lia.
Qed.

Lemma stepOneAction_halves_witness :
  exists half : Z,
    stepOneAction sample_world "1001"
    = Ok {| transactions :=
              [built sample_world sample_key
                 "9MzuZrRPW1BGpFnZJUJg6SzCrixPpJDfjsNeUobRXsLe" "wrap.near"
                 ((if true
                   then [functionCall "storage_deposit" (JObj [])
                                      30000000000000 NEW_ACCOUNT_STORAGE_COST]
                   else [])
                  ++ [functionCall "near_deposit" (JObj []) 50000000000000
                                   (toString half)])%list;
               built sample_world sample_key
                 "9MzuZrRPW1BGpFnZJUJg6SzCrixPpJDfjsNeUobRXsLe"
                 "meta-pool.near"
                 [functionCall "deposit_and_stake" (JObj []) 50000000000000
                               (toString half)]];
            callbackUrl := location_href sample_world |}
    /\ half + half <= 1001
    /\ 1001 - (half + half) = 1001 mod 2.
Proof.
  apply (stepOneAction_halves sample_world "1001" 1001 None true sample_key
           "9MzuZrRPW1BGpFnZJUJg6SzCrixPpJDfjsNeUobRXsLe").
  - split; [reflexivity|lia].
  - reflexivity.
  - reflexivity.
  - split; reflexivity.
Defined.

(** ** [passToWallet] *)

(** X22: [passToWallet] hands over all or nothing: when one of the pending
    operations rejects, no request reaches the wallet; when all resolve,
    the request carries their transactions, flattened in order. *)
Theorem passToWallet_all_or_nothing (w : World)
        (preTXs : list (result (list Transaction))) (e : exn) :
  In (Throw e) preTXs ->
  (exists e', passToWallet w preTXs = Throw e')
  /\ forall txss : list (list Transaction),
      passToWallet w (List.map Ok txss)
      = Ok {| transactions := concat txss; callbackUrl := location_href w |}.
Proof.
  intros Hin. split; [|apply passToWallet_resolved].
  unfold passToWallet.
  destruct (Promise_all_Throw preTXs e Hin) as [e' ->]. cbn. eauto.
Qed.

Lemma passToWallet_all_or_nothing_witness :
  (exists e',
      passToWallet sample_world
        [nearToStnear sample_world "5";
         depositTokensOnRef sample_world
           [ {| token := "wrap.near"; amount := "20" |} ]]
      = Throw e')
  /\ forall txss : list (list Transaction),
      passToWallet sample_world (List.map Ok txss)
      = Ok {| transactions := concat txss;
              callbackUrl := location_href sample_world |}.
Proof.
  apply (passToWallet_all_or_nothing sample_world
           [nearToStnear sample_world "5";
            depositTokensOnRef sample_world
              [ {| token := "wrap.near"; amount := "20" |} ]]
           NullProperty).
  right. left. vm_compute. reflexivity.
Defined.

(** ** [estimateStnearOut], further *)

Lemma uint_of_zeros (n : nat) :
  NilEmpty.uint_of_string (Nat.iter n (String.append "0") EmptyString)
  = Some (Nat.iter n Decimal.D0 Decimal.Nil).
Proof.
  induction n as [|n IH]; [reflexivity|].
  rewrite !Nat.iter_succ.
  change (NilEmpty.uint_of_string
            (String "0" (Nat.iter n (String.append "0") EmptyString))
          = Some (Decimal.D0 (Nat.iter n Decimal.D0 Decimal.Nil))).
  cbn [NilEmpty.uint_of_string]. now rewrite IH.
Qed.

Lemma decimal_app_cons (d z : Decimal.uint) :
  Decimal.app (Decimal.D0 d) z = Decimal.D0 (Decimal.app d z)
  /\ Decimal.app (Decimal.D1 d) z = Decimal.D1 (Decimal.app d z)
  /\ Decimal.app (Decimal.D2 d) z = Decimal.D2 (Decimal.app d z)
  /\ Decimal.app (Decimal.D3 d) z = Decimal.D3 (Decimal.app d z)
  /\ Decimal.app (Decimal.D4 d) z = Decimal.D4 (Decimal.app d z)
  /\ Decimal.app (Decimal.D5 d) z = Decimal.D5 (Decimal.app d z)
  /\ Decimal.app (Decimal.D6 d) z = Decimal.D6 (Decimal.app d z)
  /\ Decimal.app (Decimal.D7 d) z = Decimal.D7 (Decimal.app d z)
  /\ Decimal.app (Decimal.D8 d) z = Decimal.D8 (Decimal.app d z)
  /\ Decimal.app (Decimal.D9 d) z = Decimal.D9 (Decimal.app d z).
Proof.
  repeat split; apply DecimalFacts.to_list_inj;
    cbn [DecimalFacts.to_list]; rewrite !DecimalFacts.app_spec; reflexivity.
Qed.

Lemma uint_of_string_app_zeros (s : string) (d : Decimal.uint) (n : nat) :
  NilEmpty.uint_of_string s = Some d ->
  NilEmpty.uint_of_string
    (s +:+ Nat.iter n (String.append "0") EmptyString)
  = Some (Decimal.app d (Nat.iter n Decimal.D0 Decimal.Nil)).
Proof.
  revert d. induction s as [|c s IH]; intros d Hd.
  - injection Hd as <-. rewrite DecimalFacts.app_nil_l. apply uint_of_zeros.
  - simpl in Hd |- *.
    destruct (NilEmpty.uint_of_string s) as [d'|] eqn:Hs.
    + rewrite (IH d' eq_refl).
      destruct (decimal_app_cons d' (Nat.iter n Decimal.D0 Decimal.Nil))
        as (E0 & E1 & E2 & E3 & E4 & E5 & E6 & E7 & E8 & E9).
      unfold uint_of_char in *.
      destruct c as [[] [] [] [] [] [] [] []]; cbn in Hd |- *;
        try discriminate; injection Hd as <-; congruence.
    + unfold uint_of_char in Hd.
      destruct c as [[] [] [] [] [] [] [] []]; cbn in Hd; discriminate.
Qed.

Lemma nzuint_of_string_app_zeros (s : string) (d : Decimal.uint) (n : nat) :
  NilZero.uint_of_string s = Some d ->
  NilZero.uint_of_string
    (s +:+ Nat.iter n (String.append "0") EmptyString)
  = Some (Decimal.app d (Nat.iter n Decimal.D0 Decimal.Nil)).
Proof.
  destruct s as [|c s]; [discriminate|]. intros Hd.
  apply (uint_of_string_app_zeros (String c s) d n Hd).
Qed.

Lemma iter_mul_10 (n : nat) (z : Z) :
  Nat.iter n (Z.mul 10) z = z * 10 ^ Z.of_nat n.
Proof.
  induction n as [|n IH]; [cbn; lia|].
  rewrite Nat.iter_succ, IH, Nat2Z.inj_succ, Z.pow_succ_r by lia. lia.
Qed.

Lemma of_uint_app_zeros (d : Decimal.uint) (n : nat) :
  Z.of_uint (Decimal.app d (Nat.iter n Decimal.D0 Decimal.Nil))
  = Z.of_uint d * 10 ^ Z.of_nat n.
Proof. now rewrite DecimalZ.of_uint_iter_D0, iter_mul_10. Qed.

Lemma BigInt_app_zeros_nonempty (c : ascii) (s : string) (z : Z) (n : nat) :
  BigInt (String c s) = Ok z ->
  BigInt (String c s +:+ Nat.iter n (String.append "0") EmptyString)
  = Ok (z * 10 ^ Z.of_nat n).
Proof.
  intros H. unfold BigInt in H |- *.
  change (String c s +:+ Nat.iter n (String.append "0") EmptyString)
    with (String c (s +:+ Nat.iter n (String.append "0") EmptyString)).
  unfold NilZero.int_of_string in H |- *.
  destruct (Ascii.eqb_spec c "-") as [->|Hminus].
  - destruct (NilZero.uint_of_string s) as [d|] eqn:Hs;
      cbn [option_map] in H; [|discriminate].
    rewrite (nzuint_of_string_app_zeros s d n Hs). cbn [option_map].
    injection H as <-. cbn [Z.of_int]. rewrite of_uint_app_zeros.
    f_equal. ring.
  - destruct (NilZero.uint_of_string (String c s)) as [d|] eqn:Hs;
      cbn [option_map] in H.
    + pose proof (nzuint_of_string_app_zeros (String c s) d n Hs) as Hz.
      change (String c s +:+ Nat.iter n (String.append "0") EmptyString)
        with (String c (s +:+ Nat.iter n (String.append "0") EmptyString))
        in Hz.
      rewrite Hz. cbn [option_map].
      injection H as <-. cbn [Z.of_int]. now rewrite of_uint_app_zeros.
    + destruct (Ascii.eqb_spec c "+") as [->|Hplus].
      * destruct (NilZero.uint_of_string s) as [d|] eqn:Hs';
          [|discriminate].
        rewrite (nzuint_of_string_app_zeros s d n Hs').
        assert (Hnone :
                 NilZero.uint_of_string
                   (String "+" (s +:+ Nat.iter n (String.append "0") EmptyString))
                 = None).
        { unfold NilZero.uint_of_string. cbn [NilEmpty.uint_of_string].
          now destruct (NilEmpty.uint_of_string _). }
        rewrite Hnone. cbn [option_map].
        injection H as <-. now rewrite of_uint_app_zeros.
      * exfalso. clear -H Hplus.
        destruct c as [[] [] [] [] [] [] [] []];
          try discriminate; now apply Hplus.
Qed.

(** Appending [n] zeros to a decimal literal multiplies the BigInt it
    reads as by [10 ^ n]. *)
Lemma BigInt_app_zeros (s : string) (z : Z) (n : nat) :
  BigInt s = Ok z ->
  BigInt (s +:+ Nat.iter n (String.append "0") EmptyString)
  = Ok (z * 10 ^ Z.of_nat n).
Proof.
  intros H. destruct s as [|c s]; [|now apply BigInt_app_zeros_nonempty].
  injection H as <-.
  change (EmptyString +:+ ?x) with x.
  destruct n as [|n]; [reflexivity|].
  rewrite Nat.iter_succ.
  change (String.append "0" (Nat.iter n (String.append "0") EmptyString))
    with ("0" +:+ Nat.iter n (String.append "0") EmptyString).
  rewrite (BigInt_app_zeros_nonempty "0" EmptyString 0 n eq_refl).
  reflexivity.
Qed.

(** X23: with a readable amount and a non-zero price, the BigInt quotient
    [estimateStnearOut] hands to the conversion is the amount scaled by
    [10 ^ accuracy] and divided by the price, truncated; a negative
    accuracy is a [RangeError]. *)
Theorem estimateStnearOut_quotient (w : World) (amount price : string)
        (accuracy : option Z) (z p : Z) :
  BigInt amount = Ok z -> BigInt price = Ok p -> p <> 0 ->
  (0 <= default 5 accuracy ->
   estimateStnearOut w amount price accuracy
   = parseNearAmount_scaled w
       (Z.quot (z * 10 ^ default 5 accuracy) p) (default 5 accuracy))
  /\ (default 5 accuracy < 0 ->
      estimateStnearOut w amount price accuracy = Throw InvalidCount).
Proof.
  intros Hz Hp Hp0. unfold estimateStnearOut, String_repeat.
  rewrite Hp. cbn [bind].
  destruct (Z.eqb_spec p 0) as [|_]; [contradiction|].
  destruct (Z.ltb_spec (default 5 accuracy) 0) as [Hneg|Hpos]; split;
    try lia; intros _; [reflexivity|].
  cbn [bind]. rewrite (BigInt_app_zeros amount z _ Hz). cbn [bind].
  rewrite Z2Nat.id by assumption.
  now rewrite div_nonzero.
Qed.

Lemma estimateStnearOut_quotient_witness :
  (0 <= default 5 None ->
   estimateStnearOut sample_world "7" "3" None
   = parseNearAmount_scaled sample_world
       (Z.quot (7 * 10 ^ default 5 None) 3) (default 5 None))
  /\ (default 5 None < 0 ->
      estimateStnearOut sample_world "7" "3" None = Throw InvalidCount).
Proof.
  apply (estimateStnearOut_quotient sample_world "7" "3" None 7 3);
    [reflexivity|reflexivity|lia].
Defined.

(** ** View defaults, further *)

(** X24: in [getFarmingStake] and [getTokenBalancesOnRef] an entry stored
    as the empty string reads as "0", a stored entry that is not empty is
    returned as it is, and the empty string is never returned;
    [getFarmingStake] always returns a string, "0" when there is no entry;
    a token with no entry reads as "0" when it is no name of
    [Object.prototype]; and a rejected read is rejected as such, not read
    as "0". *)
Theorem views_read_entries (w : World) (pool : Z) (tokens : list string) :
  (forall seeds : gmap string string,
      list_user_seeds w = Ok seeds ->
      exists s : string,
        getFarmingStake w pool = Ok (VString s)
        /\ s <> ""
        /\ (seeds !! (ADDRESS_REF_EXCHANGE w +:+ "@" +:+ toString pool) = None
            -> s = "0")
        /\ (seeds !! (ADDRESS_REF_EXCHANGE w +:+ "@" +:+ toString pool)
            = Some "" -> s = "0")
        /\ (forall v,
               seeds !! (ADDRESS_REF_EXCHANGE w +:+ "@" +:+ toString pool)
               = Some v -> v <> "" -> s = v))
  /\ (forall e, list_user_seeds w = Throw e -> getFarmingStake w pool = Throw e)
  /\ (forall deposits : gmap string string,
         get_deposits w = Ok deposits ->
         exists balances : list value,
           getTokenBalancesOnRef w tokens = Ok balances
           /\ length balances = length tokens
           /\ forall (i : nat) (token : string),
               tokens !! i = Some token ->
               balances !! i <> Some (VString "")
               /\ (deposits !! token = Some "" ->
                   balances !! i = Some (VString "0"))
               /\ (forall v, deposits !! token = Some v -> v <> "" ->
                             balances !! i = Some (VString v))
               /\ (deposits !! token = None -> inherited token = false ->
                   balances !! i = Some (VString "0")))
  /\ (forall e, get_deposits w = Throw e ->
                getTokenBalancesOnRef w tokens = Throw e).
Proof.
  split; [|split; [|split]].
  - intros seeds Hseeds. rewrite (getFarmingStake_value w pool seeds Hseeds).
    eexists. split; [reflexivity|].
    destruct (seeds !! _) as [[|c s]|]; repeat split;
      try discriminate; try reflexivity.
    + intros v [= <-] Hv. contradiction.
    + intros v [= <-] _. reflexivity.
  - intros e He. unfold getFarmingStake. now rewrite He.
  - intros deposits Hdeps.
    rewrite (getTokenBalancesOnRef_value w tokens deposits Hdeps).
    eexists. split; [reflexivity|]. split; [apply List.length_map|].
    intros i token Hi. rewrite list_lookup_fmap, Hi. cbn [fmap option_fmap option_map].
    unfold balance_read.
    destruct (deposits !! token) as [[|c s]|]; repeat split;
      try discriminate; try reflexivity.
    + intros v [= <-] Hv. contradiction.
    + intros v [= <-] _. reflexivity.
    + destruct (inherited token); discriminate.
    + intros _ ->. reflexivity.
  - intros e He. unfold getTokenBalancesOnRef. now rewrite He.
Qed.

Lemma views_read_entries_witness :
  (exists s : string,
      getFarmingStake sample_world 535 = Ok (VString s) /\ s = "0")
  /\ exists balances : list value,
      getTokenBalancesOnRef sample_world ["meta-pool.near"; "wrap.near"]
      = Ok balances
      /\ balances !! 1%nat = Some (VString "10")
      /\ balances !! 0%nat = Some (VString "0").
Proof.
  destruct (views_read_entries sample_world 535
              ["meta-pool.near"; "wrap.near"])
    as (Hstake & _ & Hbalances & _).
  split.
  - destruct (Hstake ∅ eq_refl) as (s & Hs & _ & Habsent & _).
    exists s. split; [exact Hs|]. apply Habsent. apply lookup_empty.
  - destruct (Hbalances {[ "wrap.near" := "10" ]} eq_refl)
      as (balances & Hb & _ & Hall).
    exists balances. split; [exact Hb|]. split.
    + destruct (Hall 1%nat "wrap.near" eq_refl) as (_ & _ & Hstored & _).
      apply Hstored; [apply lookup_singleton_eq|discriminate].
    + destruct (Hall 0%nat "meta-pool.near" eq_refl) as (_ & _ & _ & Habsent).
      apply Habsent; [now apply lookup_singleton_ne|reflexivity].
Defined.

(** ** [stepTwoAction], further *)

(** X25: [stepTwoAction] estimates the LP shares before anything else,
    whether or not the farm is active: when the estimate throws, the step
    throws, and nothing is handed to the wallet. *)
Theorem stepTwoAction_estimate_first
        (farmStakeV2 : World -> string -> Z -> result (list Transaction))
        (w : World) (isFarmActive : option bool)
        (stnearAmount wnearAmount : string) (info : PoolInfo) (e : exn) :
  getPoolInfo w STNEAR_WNEAR_POOL_ID = Ok info ->
  calcLpSharesFromAmounts (total_shares info) (pool_amounts info)
                          [stnearAmount; wnearAmount] = Throw e ->
  stepTwoAction farmStakeV2 w isFarmActive stnearAmount wnearAmount = Throw e.
Proof.
  intros Hinfo Hlp. unfold stepTwoAction, stepTwoAction_actions.
  rewrite Hinfo. cbn [bind]. now rewrite Hlp.
Qed.



Lemma stepTwoAction_estimate_first_witness :
  stepTwoAction farmStake sample_world (Some false) "10" "twenty"
  = Throw SyntaxError.
Proof.
  apply (stepTwoAction_estimate_first farmStake sample_world (Some false)
           "10" "twenty"
           {| fee := 30; user_shares := "0"; total_shares := "1000000";
              pool_amounts := ["100"; "200"] |} SyntaxError);
    reflexivity.
Defined.
